(** * conversion_exodus_init_to_mpasli_mesh.py: a shallow embedding

    The script copies one field of an Albany (Exodus) output onto an
    MPAS-Land Ice mesh, builds a mask of trusted cells, extrapolates the
    field into the other cells ring by ring, and smooths it.

    What is embedded, phase by phase, with the lines of the script:
    - [correspondence] (118-136): the [coord] and [id] conversion methods;
    - [convert] (65, 118-181): correspondence, then the per-level write
      dispatch on the variable name;
    - [build_mask] (184-205): the [grd] and [all] masking schemes;
    - [extrapolation_phase] (215-256): the while loop and its passes;
    - [smoothing] (260-299): the bounded smoothing loop.

    Arrays of doubles are lists of binary64 floats, integer arrays are lists
    of [Z] (the [- 1] and [+ 1] of int32 arrays wrap), the int8 masks, which
    only ever hold 0 or 1, are lists of [bool].  A Python exception or
    [sys.exit] ends the run; it is a value of [py_error].  The Exodus reader,
    option parsing and printing are outside: the per-layer sample arrays and
    the parsed options are inputs.  Arrays read from the file are plain
    (unmasked) arrays, and an integer array used as an index into a variable
    of the file selects as it does into a numpy array. *)

From Stdlib Require Import ZArith Floats Bool Lia.
From stdpp Require Import base option list gmap strings.

Set Warnings "-inexact-float".
Local Open Scope string_scope.
Local Open Scope Z_scope.

(** ** Failures *)

Inductive py_error : Type :=
| KeyError (key : string)
| IndexError
| ValueError
| AssertionError
| SystemExit (msg : string).

Inductive result (A : Type) : Type :=
| Ok (a : A)
| Raise (e : py_error).
Arguments Ok {A} a.
Arguments Raise {A} e.

Definition rbind {A B} (r : result A) (k : A -> result B) : result B :=
  match r with
  | Ok a => k a
  | Raise e => Raise e
  end.

Notation "'try' x '<-' r ';' k" := (rbind r (fun x => k))
  (at level 10, x pattern, r at level 100, k at level 200).

Fixpoint mapM {A B} (f : A -> result B) (l : list A) : result (list B) :=
  match l with
  | [] => Ok []
  | a :: l' => try b <- f a; try bs <- mapM f l'; Ok (b :: bs)
  end.

(** ** Python and numpy indexing *)

(** [a - 1] and [a + 1] on an int32 array. *)
Definition wrap32 (z : Z) : Z := (z + 2^31) mod 2^32 - 2^31.

(** An integer index into an axis of length [n]: negative indices count from
    the end, anything else out of range is an IndexError. *)
Definition py_index (n : nat) (i : Z) : option nat :=
  if (0 <=? i) && (i <? Z.of_nat n) then Some (Z.to_nat i)
  else if (- Z.of_nat n <=? i) && (i <? 0) then Some (Z.to_nat (Z.of_nat n + i))
  else None.

(** [a[i]] for a scalar index. *)
Definition py_get {A} (a : list A) (i : Z) : result A :=
  match py_index (length a) i with
  | Some j => match a !! j with Some v => Ok v | None => Raise IndexError end
  | None => Raise IndexError
  end.

(** [a[ids]] for an integer index array. *)
Definition np_take {A} (a : list A) (ids : list Z) : result (list A) :=
  mapM (py_get a) ids.

(** [a[:n]]. *)
Definition py_slice_to {A} (a : list A) (n : Z) : list A :=
  if 0 <=? n then take (Z.to_nat n) a
  else take (length a - Z.to_nat (- n)) a.

(** [np.where(cond)[0]] and [np.nonzero]: the positions that hold, ascending. *)
Fixpoint np_where_from {A} (p : A -> bool) (i : nat) (l : list A) : list nat :=
  match l with
  | [] => []
  | a :: l' => if p a then i :: np_where_from p (S i) l' else np_where_from p (S i) l'
  end.
Definition np_where {A} (p : A -> bool) (l : list A) : list nat := np_where_from p 0 l.

Definition np_count_nonzero {A} (p : A -> bool) (l : list A) : nat :=
  length (filter (fun a => p a = true) l).

(** Element-wise binary operation on two 1-D arrays, with numpy's
    broadcasting of an array of length 1. *)
Definition np_binop {A B C} (f : A -> B -> C) (a : list A) (b : list B) : result (list C) :=
  if (length a =? length b)%nat then Ok (zip_with f a b)
  else match a, b with
       | [a0], _ => Ok (map (f a0) b)
       | _, [b0] => Ok (map (fun x => f x b0) a)
       | _, _ => Raise ValueError
       end.

(** [a[ids] = vals]: indices are checked, [vals] must have as many entries as
    [ids] (or one), and where an index repeats the last value stays. *)
Definition np_put {A} (a : list A) (ids : list Z) (vals : list A) : result (list A) :=
  try js <- mapM (fun i => match py_index (length a) i with
                           | Some j => Ok j
                           | None => Raise IndexError
                           end) ids;
  try vs <- (if (length vals =? length ids)%nat then Ok vals
             else match vals with
                  | [v] => Ok (replicate (length ids) v)
                  | _ => Raise ValueError
                  end);
  Ok (fold_left (fun acc jv => <[jv.1 := jv.2]> acc) (zip js vs) a).

(** [a[i] = v] for a scalar index. *)
Definition py_set {A} (a : list A) (i : Z) (v : A) : result (list A) :=
  match py_index (length a) i with
  | Some j => Ok (<[j := v]> a)
  | None => Raise IndexError
  end.

(** ** The open dataset *)

(** A time-dependent variable of the MPAS file at Time index 0: of rank 2
    (Time, nCells), or of rank 3 (Time, nCells, nVert...) stored level by
    level, [levels !! k] being [var[0, :, k]]. *)
Inductive vardata : Type :=
| Data2 (vals : list float)
| Data3 (levels : list (list float)).

(** The variables the script reads or writes by name, and the text file the
    [coord] method saves. *)
Record world : Type := World {
  variables : gmap string vardata;
  id_map_txt : option (list Z)
}.

Definition set_variables (vs : gmap string vardata) (w : world) : world :=
  {| variables := vs; id_map_txt := id_map_txt w |}.

(** A step of the script on the open dataset: it finishes with a value, or
    the run ends with an error; both carry the dataset as it then is. *)
Inductive outcome (A : Type) : Type :=
| Done (a : A) (w : world)
| Halt (e : py_error) (w : world).
Arguments Done {A} a w.
Arguments Halt {A} e w.

Definition M (A : Type) : Type := world -> outcome A.

Definition ret {A} (a : A) : M A := fun w => Done a w.
Definition bindM {A B} (m : M A) (k : A -> M B) : M B :=
  fun w => match m w with
           | Done a w' => k a w'
           | Halt e w' => Halt e w'
           end.
Definition lift {A} (r : result A) : M A :=
  fun w => match r with Ok a => Done a w | Raise e => Halt e w end.

Notation "'do' x '<-' m ';' k" := (bindM m (fun x => k))
  (at level 10, x pattern, m at level 100, k at level 200).

(** [dataset.variables[name]]. *)
Definition get_var (name : string) : M vardata :=
  fun w => match variables w !! name with
           | Some v => Done v w
           | None => Halt (KeyError name) w
           end.

(** [name in dataset.variables.keys()]. *)
Definition in_keys (name : string) : M bool :=
  fun w => Done (bool_decide (is_Some (variables w !! name))) w.

(** [dataset.variables[name][0, ids]] as a 1-D array.  For a rank-3 variable
    the script would get a 2-D array here; the embedding stops at rank 2 for
    these reads and reports the shape as a ValueError. *)
Definition read2 (name : string) (ids : list Z) : M (list float) :=
  do v <- get_var name;
  match v with
  | Data2 vals => lift (np_take vals ids)
  | Data3 _ => lift (Raise ValueError)
  end.

(** [dataset.variables[name][0, ids] = data] with a 1-D [data].  A rank-3
    variable with a single level takes the samples into that level; the
    embedding stops there and reports any other number of levels as a
    ValueError. *)
Definition assign2 (name : string) (ids : list Z) (data : list float) : M unit :=
  do v <- get_var name;
  match v with
  | Data2 vals =>
      do vals' <- lift (np_put vals ids data);
      fun w => Done tt (set_variables (<[name := Data2 vals']> (variables w)) w)
  | Data3 [lev] =>
      do lev' <- lift (np_put lev ids data);
      fun w => Done tt (set_variables (<[name := Data3 [lev']]> (variables w)) w)
  | Data3 _ => lift (Raise ValueError)
  end.

(** [dataset.variables[name][0, ids, k] = data]; a rank-2 variable has no
    third index. *)
Definition assign3 (name : string) (ids : list Z) (k : nat) (data : list float) : M unit :=
  do v <- get_var name;
  match v with
  | Data2 _ => lift (Raise IndexError)
  | Data3 levels =>
      match levels !! k with
      | None => lift (Raise IndexError)
      | Some lev =>
          do lev' <- lift (np_put lev ids data);
          fun w => Done tt (set_variables (<[name := Data3 (<[k := lev']> levels)]> (variables w)) w)
      end
  end.

Fixpoint forM_ {A} (l : list A) (f : A -> M unit) : M unit :=
  match l with
  | [] => ret tt
  | a :: l' => do _ <- f a; forM_ l' f
  end.

(** ** Inputs *)

(** What the platform decides and the script does not: the C library's
    exponential behind [np.exp], and which element a Python set yields first
    (given here as the ascending elements, head and tail). *)
Record platform : Type := Platform {
  np_exp : float -> float;
  set_first : nat -> list nat -> nat
}.

(** The parsed command line; [smooth_iter_num] is [int(options.smooth_iter_num)]. *)
Record options : Type := Options {
  conversion_method : string;
  mask_scheme : string;
  var_name : string;
  extrapolation : string;
  smooth_iter_num : Z
}.

(** The mesh arrays of the MPAS file, which the script only reads. *)
Record mesh : Type := Mesh {
  xCell : list float;
  yCell : list float;
  cellsOnCell : list (list Z);
  nEdgesOnCell : list Z;
  nCells : nat
}.

(** The first layer of the Exodus samples, already in metres, and the array
    [np.loadtxt] returns for the id file. *)
Record samples : Type := Samples {
  x_exo_layer : list float;
  y_exo_layer : list float;
  data_exo_layer : list float;
  usefulCellID : list Z
}.

Definition mpas_exodus_var_dic : list (string * string) :=
  [ ("beta", "basal_friction"); ("thickness", "ice_thickness");
    ("stiffnessFactor", "stiffening_factor");
    ("basalTemperature", "temperature");
    ("temperature", "temperature");
    ("surfaceTemperature", "surface_air_temperature");
    ("uReconstructX", "solution_1");
    ("uReconstructY", "solution_2") ].

Definition ice_density : float := 910.0%float.
Definition ocean_density : float := 1028.0%float.

Fixpoint dict_get (d : list (string * string)) (k : string) : result string :=
  match d with
  | [] => Raise (KeyError k)
  | (k', v) :: d' => if String.eqb k k' then Ok v else dict_get d' k
  end.

(** ** Correspondence (lines 118-136) *)

(** [abs(c - e)/(abs(c) + 1e-10) < 1e-3] for a target coordinate [c] and a
    sample coordinate [e]. *)
Definition close_to (e c : float) : bool :=
  (abs (c - e) / (abs c + 1e-10) <? 1e-3)%float.

(** The members of [set(index_x) & set(index_y)]. *)
Definition index_intersect (index_x index_y : list nat) : list nat :=
  filter (fun j => j ∈ index_y) index_x.

Definition coord_index (pf : platform) (msh : mesh) (xe ye : float) : result nat :=
  let index_x := np_where (close_to xe) (xCell msh) in
  let index_y := np_where (close_to ye) (yCell msh) in
  match index_intersect index_x index_y with
  | [] => Raise IndexError
  | j :: js => Ok (set_first pf j js)
  end.

Definition coord_ids (pf : platform) (msh : mesh) (ex : samples) : result (list Z) :=
  mapM (fun i : nat =>
          try xe <- py_get (x_exo_layer ex) (Z.of_nat i);
          try ye <- py_get (y_exo_layer ex) (Z.of_nat i);
          try index <- coord_index pf msh xe ye;
          Ok (wrap32 (Z.of_nat index + 1)))
       (seq 0 (length (x_exo_layer ex))).

(** [np.savetxt('exodus_to_mpas_id_map.txt', ...)]. *)
Definition savetxt (rows : list Z) : M unit :=
  fun w => Done tt {| variables := variables w; id_map_txt := Some rows |}.

(** [usefulCellID[1::]]; a file with a single number loads as a 0-d array,
    which cannot be sliced. *)
Definition id_ids (loaded : list Z) : result (list Z) :=
  match loaded with
  | [_] => Raise IndexError
  | _ => Ok (drop 1 loaded)
  end.

Definition correspondence (pf : platform) (opts : options) (msh : mesh) (ex : samples)
  : M (list Z) :=
  if String.eqb (conversion_method opts) "coord" then
    do usefulCellID_array <- lift (coord_ids pf msh ex);
    do _ <- savetxt (Z.of_nat (length (x_exo_layer ex)) :: usefulCellID_array);
    ret usefulCellID_array
  else if String.eqb (conversion_method opts) "id" then
    lift (id_ids (usefulCellID ex))
  else
    lift (Raise (SystemExit "Unsupported conversion method chosen! Set option m as 'id' or 'coord'!")).

(** ** The write dispatch (lines 139-179) *)

Definition nVert_max_of (v : vardata) : nat :=
  match v with
  | Data3 levels => length levels
  | Data2 _ => 1%nat
  end.

(** [dataset.variables.keys() == False]: a list or view of keys is never
    equal to the boolean. *)
Definition keys_eq_False (vs : gmap string vardata) : bool := false.

(** [options.var_name in dataset.variables.keys() == False] is a chained
    comparison: [(name in keys) and (keys == False)]. *)
Definition name_in_keys_eq_False (name : string) : M bool :=
  fun w => Done (bool_decide (is_Some (variables w !! name)) && keys_eq_False (variables w)) w.

(** The body of the loop over levels.  [nVert_albany] is computed by the
    script and never used, so it is left out. *)
Definition write_level (pf : platform) (opts : options) (usefulCellID_array : list Z)
    (data : list float) (nVert_max nVert : nat) : M unit :=
  let name := var_name opts in
  let cells := map (fun c => wrap32 (c - 1)) usefulCellID_array in
  if String.eqb name "beta" then
    assign2 name cells (map (fun d => (np_exp pf d * 1000.0)%float) data)
  else if String.eqb name "thickness" then
    do _ <- assign2 name cells data;
    do has_bed <- in_keys "bedTopography";
    if has_bed then
      do thicknessOrig <- read2 name cells;
      do bedTopographyOrig <- read2 "bedTopography" cells;
      do surfaceTopographyOrig <- lift (np_binop PrimFloat.add thicknessOrig bedTopographyOrig);
      do _ <- assign2 name cells data;
      do newBed <- lift (np_binop PrimFloat.sub surfaceTopographyOrig data);
      assign2 "bedTopography" cells newBed
    else ret tt
  else if (1 <? nVert_max)%nat then
    assign3 name cells nVert data
  else
    do unsupported <- name_in_keys_eq_False name;
    if unsupported then
      lift (Raise (SystemExit "Unsupported variable requested for converstion."))
    else assign2 name cells data.

(** Lines 65 to 181: the Exodus name of the variable, the correspondence,
    the number of levels, and the write of each level. *)
Definition convert (pf : platform) (opts : options) (msh : mesh) (ex : samples) : M unit :=
  do exo_var_name <- lift (dict_get mpas_exodus_var_dic (var_name opts));
  do usefulCellID_array <- correspondence pf opts msh ex;
  do v <- get_var (var_name opts);
  let nVert_max := nVert_max_of v in
  forM_ (seq 0 nVert_max)
        (write_level pf opts usefulCellID_array (data_exo_layer ex) nVert_max).

(** ** The mask (lines 184-205) *)

(** [dataset.variables[name][0, :]] of a rank-2 variable. *)
Definition read_all (name : string) : M (list float) :=
  do v <- get_var name;
  match v with
  | Data2 vals => ret vals
  | Data3 _ => lift (Raise ValueError)
  end.

(** [mask[cond] = 1] with a boolean array [cond], which must be as long as
    [mask]. *)
Definition np_set_where (mask cond : list bool) : result (list bool) :=
  if (length cond =? length mask)%nat
  then Ok (zip_with (fun m (c : bool) => if c then true else m) mask cond)
  else Raise IndexError.

Definition grounded (t b : float) : bool :=
  (0 <? t * ice_density / ocean_density + b)%float.

Definition has_ice (t : float) : bool := (0 <? t)%float.

Definition keepCellMask_init (scheme : string) (nCells : nat) (thickness bedrock : list float)
  : result (list bool) :=
  let keepCellMask := replicate nCells false in
  if String.eqb scheme "grd" then
    try cond <- np_binop grounded thickness bedrock;
    np_set_where keepCellMask cond
  else if String.eqb scheme "all" then
    np_set_where keepCellMask (map has_ice thickness)
  else Raise (SystemExit "wrong masking scheme! Set option k as all or grd!").

Definition build_mask (opts : options) (msh : mesh) : M (list bool) :=
  do thickness <- read_all "thickness";
  do has_bed <- in_keys "bedTopography";
  do bedrock <- (if has_bed then read_all "bedTopography"
                 else ret (replicate (length thickness) 0%float));
  lift (keepCellMask_init (mask_scheme opts) (nCells msh) thickness bedrock).

(** ** Neighbour gathering, shared by extrapolation and smoothing *)

Fixpoint foldM {S A} (f : S -> A -> result S) (l : list A) (s : S) : result S :=
  match l with
  | [] => Ok s
  | a :: l' => try s' <- f s a; foldM f l' s'
  end.

(** [a[idx]] for positions [idx] produced by [np.nonzero] on an array as long
    as [a]. *)
Definition np_select {A} (a : list A) (idx : list nat) : list A :=
  omap (fun i => a !! i) idx.

(** [cellsOnCell[iCell, :nEdgesOnCell[iCell]] - 1]. *)
Definition neighborCellId (msh : mesh) (iCell : nat) : result (list Z) :=
  try n <- py_get (nEdgesOnCell msh) (Z.of_nat iCell);
  try row <- py_get (cellsOnCell msh) (Z.of_nat iCell);
  Ok (map (fun c => wrap32 (c - 1)) (py_slice_to row n)).

(** [np.sqrt((x_i - x_adj)**2 + (y_i - y_adj)**2)]. *)
Definition distances (x_i y_i : float) (x_adj y_adj : list float) : list float :=
  zip_with (fun xa ya =>
              PrimFloat.sqrt ((x_i - xa) * (x_i - xa) + (y_i - ya) * (y_i - ya))%float)
           x_adj y_adj.

Definition nonzero (d : float) : bool := negb (d =? 0)%float.

(** The builtin [sum], which starts from 0. *)
Definition py_sum (l : list float) : float :=
  fold_left PrimFloat.add l 0%float.

(** [1.0/sum(1.0/ds)*sum(1.0/ds*var_adj)]. *)
Definition idw (ds var_adj : list float) : float :=
  (1.0 / py_sum (map (fun d => 1.0 / d) ds)
   * py_sum (zip_with (fun d v => 1.0 / d * v) ds var_adj))%float.

(** [np.min] of a non-empty array: a NaN wins. *)
Definition np_minimum (a b : float) : float :=
  if (a <? b)%float || is_nan a then a else b.
Definition np_min (l : list float) : result float :=
  match l with
  | [] => Raise ValueError
  | v :: l' => Ok (fold_left np_minimum l' v)
  end.

(** The builtin [min]: a later element replaces the best one only when it
    compares smaller. *)
Definition py_min (l : list float) : result float :=
  match l with
  | [] => Raise ValueError
  | v :: l' => Ok (fold_left (fun best item => if (item <? best)%float then item else best) l' v)
  end.

(** The neighbour ids whose mask bit is set, out of [ids]:
    [mask_for_idx = mask[ids]], [ids[np.nonzero(mask_for_idx)]], and the
    count the script asserts to agree. *)
Definition active_among (mask : list bool) (ids : list Z) : result (list Z) :=
  try mask_for_idx <- np_take mask ids;
  let mask_nonzero_idx := np_where id mask_for_idx in
  let nonzero_id := np_select ids mask_nonzero_idx in
  let nonzero_num := np_count_nonzero id mask_for_idx in
  if (length nonzero_id =? nonzero_num)%nat then Ok nonzero_id
  else Raise AssertionError.

(** Coordinates and values of the chosen neighbours, with the assertion that
    no distance is zero: [(ds, var_adj)]. *)
Definition gather (msh : mesh) (fld : list float) (iCell : nat) (nonzero_id : list Z)
  : result (list float * list float) :=
  try x_i <- py_get (xCell msh) (Z.of_nat iCell);
  try y_i <- py_get (yCell msh) (Z.of_nat iCell);
  try x_adj <- np_take (xCell msh) nonzero_id;
  try y_adj <- np_take (yCell msh) nonzero_id;
  let ds := distances x_i y_i x_adj y_adj in
  if (np_count_nonzero nonzero ds =? length ds)%nat then
    try var_adj <- np_take fld nonzero_id;
    Ok (ds, var_adj)
  else Raise AssertionError.

(** ** Extrapolation (lines 215-256) *)

(** The body of [for iCell in searchCells], on the processed field and
    [keepCellMaskNew]; [keepCellMask] is the mask copied at the head of the
    pass.  [nonzero_num] is the length of [nonzero_id], which is what the
    assertion in [active_among] checks. *)
Definition extrapolate_cell (opts : options) (msh : mesh) (keepCellMask : list bool)
    (st : list float * list bool) (iCell : nat) : result (list float * list bool) :=
  let '(fld, keepCellMaskNew) := st in
  try ids <- neighborCellId msh iCell;
  try nonzero_id <- active_among keepCellMask ids;
  if (0 <? length nonzero_id)%nat then
    try (ds, var_adj) <- gather msh fld iCell nonzero_id;
    try fld' <- (if String.eqb (extrapolation opts) "idw" then
                   py_set fld (Z.of_nat iCell) (idw ds var_adj)
                 else if String.eqb (extrapolation opts) "min" then
                   try var_adj_min <- np_min var_adj;
                   py_set fld (Z.of_nat iCell) var_adj_min
                 else Raise (SystemExit "wrong extrapolation scheme! Set option x as idw or min!"));
    try new' <- py_set keepCellMaskNew (Z.of_nat iCell) true;
    Ok (fld', new')
  else Ok (fld, keepCellMaskNew).

Definition extrapolation_pass (opts : options) (msh : mesh) (keepCellMask : list bool)
    (st : list float * list bool) : result (list float * list bool) :=
  foldM (extrapolate_cell opts msh keepCellMask) (np_where negb keepCellMask) st.

(** The three arrays the loop works on. *)
Record ext_state : Type := ExtState {
  keepCellMask : list bool;
  keepCellMaskNew : list bool;
  field : list float
}.

Definition all_active (msh : mesh) (mask : list bool) : bool :=
  (np_count_nonzero id mask =? nCells msh)%nat.

(** The while loop, with a bound on the number of passes: [None] when the
    bound is reached with the loop still running. *)
Fixpoint extrapolation_loop (fuel : nat) (opts : options) (msh : mesh) (st : ext_state)
  : option (result ext_state) :=
  if all_active msh (keepCellMask st) then Some (Ok st)
  else match fuel with
       | O => None
       | S fuel' =>
           let frozen := keepCellMaskNew st in
           match extrapolation_pass opts msh frozen (field st, keepCellMaskNew st) with
           | Raise e => Some (Raise e)
           | Ok (fld, new) =>
               extrapolation_loop fuel' opts msh
                 {| keepCellMask := frozen; keepCellMaskNew := new; field := fld |}
           end
       end.

Definition extrapolation_phase (fuel : nat) (opts : options) (msh : mesh) (st : ext_state)
  : option (result ext_state) :=
  if String.eqb (var_name opts) "thickness" then Some (Ok st)
  else extrapolation_loop fuel opts msh st.

(** ** Smoothing (lines 260-299) *)

(** [neighborCellId[np.nonzero(neighborCellId+1)]]: the neighbour ids that
    are not the padding value. *)
Definition cell_nonzero_id (ids : list Z) : list Z :=
  let nonzero_idx := np_where (fun c => negb (wrap32 (c + 1) =? 0)) ids in
  np_select ids nonzero_idx.

(** The body of [for iCell in searchCells] of the smoothing loop. *)
Definition smooth_cell (opts : options) (msh : mesh) (keepCellMask : list bool)
    (fld : list float) (iCell : nat) : result (list float) :=
  try ids <- neighborCellId msh iCell;
  try nonzero_id <- active_among keepCellMask (cell_nonzero_id ids);
  if (0 <? length nonzero_id)%nat then
    try (ds, var_adj) <- gather msh fld iCell nonzero_id;
    try var_interp <- (if String.eqb (var_name opts) "beta" then py_min var_adj
                       else if String.eqb (var_name opts) "stiffnessFactor" then
                         Ok (idw ds var_adj)
                       else Raise (SystemExit "Smoothing is only for beta and stiffness for now. Set option i to 0 to disable smoothing!"));
    py_set fld (Z.of_nat iCell) var_interp
  else Raise AssertionError.

Definition smoothing_pass (opts : options) (msh : mesh) (keepCellMaskOld keepCellMask : list bool)
    (fld : list float) : result (list float) :=
  foldM (smooth_cell opts msh keepCellMask) (np_where negb keepCellMaskOld) fld.

Fixpoint smoothing_iters (n : nat) (opts : options) (msh : mesh)
    (keepCellMaskOld keepCellMask : list bool) (fld : list float) : result (list float) :=
  match n with
  | O => Ok fld
  | S n' =>
      try fld' <- smoothing_pass opts msh keepCellMaskOld keepCellMask fld;
      smoothing_iters n' opts msh keepCellMaskOld keepCellMask fld'
  end.

(** [while iter_num < int(options.smooth_iter_num)], counting up from 0. *)
Definition smoothing (opts : options) (msh : mesh) (keepCellMaskOld keepCellMask : list bool)
    (fld : list float) : result (list float) :=
  smoothing_iters (Z.to_nat (smooth_iter_num opts)) opts msh keepCellMaskOld keepCellMask fld.

(** * Example inputs *)

(** A platform for running examples: the first element of a set is its
    least one, and [np_exp] is a stand-in, since no example processes
    [beta] through [convert]. *)
Definition ascending_first : platform :=
  {| np_exp := fun d => d; set_first := fun j _ => j |}.

Definition run_options (method scheme name rule : string) (iters : Z) : options :=
  {| conversion_method := method; mask_scheme := scheme; var_name := name;
     extrapolation := rule; smooth_iter_num := iters |}.

(** One cell without neighbours. *)
Definition one_cell : mesh :=
  {| xCell := [0%float]; yCell := [0%float]; cellsOnCell := [[0]];
     nEdgesOnCell := [0]; nCells := 1 |}.

(** Five cells in a line at x = 0..4; the end cells have one neighbour and a
    padding slot. *)
Definition line5 : mesh :=
  {| xCell := [0; 1; 2; 3; 4]%float; yCell := [0; 0; 0; 0; 0]%float;
     cellsOnCell := [[2; 0]; [1; 3]; [2; 4]; [3; 5]; [4; 0]];
     nEdgesOnCell := [1; 2; 2; 2; 1]; nCells := 5 |}.

(** The same line, with the degree of cell 0 declared as 2, so that its
    padding slot is inside the declared degree. *)
Definition line5_padded : mesh :=
  {| xCell := [0; 1; 2; 3; 4]%float; yCell := [0; 0; 0; 0; 0]%float;
     cellsOnCell := [[2; 0]; [1; 3]; [2; 4]; [3; 5]; [4; 0]];
     nEdgesOnCell := [2; 2; 2; 2; 1]; nCells := 5 |}.

(** A dataset with thickness and bed topography on one cell. *)
Definition ice_world (t b : float) : world :=
  {| variables := {[ "thickness" := Data2 [t]; "bedTopography" := Data2 [b] ]};
     id_map_txt := None |}.

(** One sample with value [d]; the id file declares one entry, cell 1. *)
Definition one_sample (d : float) : samples :=
  {| x_exo_layer := [0%float]; y_exo_layer := [0%float]; data_exo_layer := [d];
     usefulCellID := [1; 1] |}.

(** Two samples far from the only cell of [one_cell]. *)
Definition far_samples : samples :=
  {| x_exo_layer := [5; 6]%float; y_exo_layer := [5; 6]%float;
     data_exo_layer := [7; 8]%float; usefulCellID := [] |}.

(** Two samples for cells 1 and 2, in an id file that declares five entries. *)
Definition miscounted_samples : samples :=
  {| x_exo_layer := [0; 1]%float; y_exo_layer := [0; 0]%float;
     data_exo_layer := [7; 8]%float; usefulCellID := [5; 1; 2] |}.

(** A dataset with one rank-2 variable. *)
Definition flat_world (name : string) (vals : list float) : world :=
  {| variables := {[ name := Data2 vals ]}; id_map_txt := None |}.

(** Three cells: 0 and 1 are neighbours of each other, 2 has no neighbour. *)
Definition isolated3 : mesh :=
  {| xCell := [0; 1; 5]%float; yCell := [0; 0; 0]%float;
     cellsOnCell := [[2]; [1]; [0]]; nEdgesOnCell := [1; 1; 0]; nCells := 3 |}.

Definition ext_start (mask : list bool) (fld : list float) : ext_state :=
  {| keepCellMask := mask; keepCellMaskNew := mask; field := fld |}.

(** * Definitions for the statements *)

(** [ids] at the positions where [bs] holds, written by recursion. *)
Fixpoint keep_where {A} (ids : list A) (bs : list bool) : list A :=
  match ids, bs with
  | j :: ids', b :: bs' => if b then j :: keep_where ids' bs' else keep_where ids' bs'
  | _, _ => []
  end.

(** Whether the mask holds at a neighbour id, read the way numpy reads it. *)
Definition active_at (mask : list bool) (j : Z) : bool :=
  match py_get mask j with
  | Ok true => true
  | _ => false
  end.

(** The pass as the specification words it: every cell is filled from the
    mask and from the field values as they were when the pass began
    ([fld0]); what the pass activates goes to the next mask only.  It is
    compared with [extrapolate_cell], which reads the field as it is when the
    cell is reached. *)
Definition extrapolate_cell_frozen (opts : options) (msh : mesh) (keepCellMask : list bool)
    (fld0 : list float) (st : list float * list bool) (iCell : nat)
  : result (list float * list bool) :=
  let '(fld, next) := st in
  try ids <- neighborCellId msh iCell;
  try nonzero_id <- active_among keepCellMask ids;
  if (0 <? length nonzero_id)%nat then
    try (ds, var_adj) <- gather msh fld0 iCell nonzero_id;
    try fld' <- (if String.eqb (extrapolation opts) "idw" then
                   py_set fld (Z.of_nat iCell) (idw ds var_adj)
                 else if String.eqb (extrapolation opts) "min" then
                   try var_adj_min <- np_min var_adj;
                   py_set fld (Z.of_nat iCell) var_adj_min
                 else Raise (SystemExit "wrong extrapolation scheme! Set option x as idw or min!"));
    try next' <- py_set next (Z.of_nat iCell) true;
    Ok (fld', next')
  else Ok (fld, next).

Definition extrapolation_pass_frozen (opts : options) (msh : mesh) (keepCellMask : list bool)
    (st : list float * list bool) : result (list float * list bool) :=
  foldM (extrapolate_cell_frozen opts msh keepCellMask st.1) (np_where negb keepCellMask) st.

(** A cell has an active neighbour under a mask. *)
Definition has_active_neighbor (msh : mesh) (mask : list bool) (iCell : nat) : Prop :=
  exists ids nonzero_id,
    neighborCellId msh iCell = Ok ids
    /\ active_among mask ids = Ok nonzero_id
    /\ nonzero_id <> [].

(** * Reading the Exodus file (lines 73-111) *)

(** What the script takes from the Exodus file: [int(stride)], the
    [ordering] flag, the node values of the variable at step 1, and the
    coordinates in kilometres. *)
Record exodus_data : Type := ExodusData {
  stride : Z;
  ordering : float;
  node_values : list float;
  coord_x : list float;
  coord_y : list float
}.

(** Every [k]-th element of a list, the first one after skipping [c]. *)
Fixpoint every_from {A} (k c : nat) (l : list A) : list A :=
  match l with
  | [] => []
  | a :: l' =>
      match c with
      | O => a :: every_from k (k - 1) l'
      | S c' => every_from k c' l'
      end
  end.

(** [a[::k]]: a zero step is a ValueError, a negative one walks back from the
    last element. *)
Definition py_slice_step {A} (a : list A) (k : Z) : result (list A) :=
  if k =? 0 then Raise ValueError
  else if 0 <? k then Ok (every_from (Z.to_nat k) 0 a)
  else Ok (every_from (Z.to_nat (- k)) 0 (reverse a)).

(** Lines 76-83: thickness from km to m, velocities from m/yr to m/s. *)
Definition data_exo_of (exo_var_name : string) (values : list float) : list float :=
  if String.eqb exo_var_name "ice_thickness" then map (fun v => v * 1000)%float values
  else if String.eqb exo_var_name "solution_1" then
    map (fun v => v / (60 * 60 * 24 * 365))%float values
  else if String.eqb exo_var_name "solution_2" then
    map (fun v => v / (60 * 60 * 24 * 365))%float values
  else values.

(** The loader ends with the three first-layer arrays and [layer_num], with
    a Python error, or with the ZeroDivisionError of [len(data_exo)//node_num]. *)
Inductive load_outcome : Type :=
| Loaded (x_layer y_layer data_layer : list float) (layer_num : Z)
| LoadRaise (e : py_error)
| LoadZeroDivision.

(** Lines 73-109. *)
Definition load_layer (exo_var_name : string) (exo : exodus_data) : load_outcome :=
  let data_exo := data_exo_of exo_var_name (node_values exo) in
  let x_exo := map (fun c => c * 1000)%float (coord_x exo) in
  let y_exo := map (fun c => c * 1000)%float (coord_y exo) in
  if (ordering exo =? 1)%float then
    let layer_num := stride exo in
    match py_slice_step data_exo layer_num with
    | Raise e => LoadRaise e
    | Ok data_layer =>
        match py_slice_step x_exo layer_num with
        | Raise e => LoadRaise e
        | Ok x_layer =>
            match py_slice_step y_exo layer_num with
            | Raise e => LoadRaise e
            | Ok y_layer => Loaded x_layer y_layer data_layer layer_num
            end
        end
    end
  else if (ordering exo =? 0)%float then
    let node_num := stride exo in
    let data_layer := py_slice_to data_exo (node_num + 1) in
    let x_layer := py_slice_to x_exo (node_num + 1) in
    let y_layer := py_slice_to y_exo (node_num + 1) in
    if node_num =? 0 then LoadZeroDivision
    else Loaded x_layer y_layer data_layer (Z.of_nat (length data_exo) / node_num)
  else LoadRaise (SystemExit "Invalid ordering in Exodus file.  Ordering must be 0 or 1.").

(** * More definitions for the statements *)

(** The number of cells a mask leaves out. *)
Fixpoint n_inactive (mask : list bool) : nat :=
  match mask with
  | [] => 0
  | b :: mask' => if b then n_inactive mask' else S (n_inactive mask')
  end.

(** The cell a stored id refers to in an array of [n] cells: [id - 1], read
    the way numpy reads an index. *)
Definition cell_of (n : nat) (id : Z) : option nat := py_index n (wrap32 (id - 1)).

(** Ten nodes in two layers of five, with the values 0..9. *)
Definition two_layers (ord : float) (k : Z) : exodus_data :=
  {| stride := k; ordering := ord;
     node_values := [0; 1; 2; 3; 4; 5; 6; 7; 8; 9]%float;
     coord_x := [0; 1; 2; 3; 4; 5; 6; 7; 8; 9]%float;
     coord_y := [0; 0; 0; 0; 0; 0; 0; 0; 0; 0]%float |}.

(** Two samples lying on cells 1 and 3 of [line5]. *)
Definition line_samples : samples :=
  {| x_exo_layer := [1; 3]%float; y_exo_layer := [0; 0]%float;
     data_exo_layer := [7; 8]%float; usefulCellID := [2; 2; 4] |}.

(** A dataset with one variable of two levels over three cells. *)
Definition layered_world (name : string) : world :=
  {| variables := {[ name := Data3 [[0; 0; 0]; [1; 1; 1]]%float ]}; id_map_txt := None |}.

(** Two samples for the cells 1 and 3 of a three-cell mesh. *)
Definition outer_samples : samples :=
  {| x_exo_layer := [0; 5]%float; y_exo_layer := [0; 0]%float;
     data_exo_layer := [7; 8]%float; usefulCellID := [2; 1; 3] |}.

(** Two samples, the second with an id beyond the five cells of [line5]. *)
Definition bad_id_samples : samples :=
  {| x_exo_layer := [0; 1]%float; y_exo_layer := [0; 0]%float;
     data_exo_layer := [7; 8]%float; usefulCellID := [2; 1; 9] |}.

(** Two samples, the first stored with id 0. *)
Definition zero_id_samples : samples :=
  {| x_exo_layer := [0; 1]%float; y_exo_layer := [0; 0]%float;
     data_exo_layer := [7; 8]%float; usefulCellID := [2; 0; 2] |}.

(** * The write dispatch *)

Section Dispatch.

Variable pf : platform.

(** On one cell, the thickness branch leaves [(d + b) - d] in the bed
    topography, whatever the thickness [t] was before: [thicknessOrig] is
    read after line 166 has stored [d]. *)
Lemma thickness_write_ignores_old_thickness (t b d : float) :
  exists w',
    convert pf (run_options "id" "all" "thickness" "min" 0) one_cell (one_sample d)
            (ice_world t b) = Done tt w'
    /\ variables w' !! "thickness" = Some (Data2 [d])
    /\ variables w' !! "bedTopography" = Some (Data2 [(d + b - d)%float]).
Proof.
  eexists. split; [vm_compute; reflexivity|].
  split; vm_compute; reflexivity.
Qed.

(** The guard of line 176 is false on every dataset and every name. *)
Lemma name_in_keys_eq_False_never (name : string) (w : world) :
  name_in_keys_eq_False name w = Done false w.
Proof.
  unfold name_in_keys_eq_False, keys_eq_False. by rewrite andb_false_r.
Qed.

(** A variable that the dataset lacks, other than [beta] and [thickness],
    reaches the plain write of line 179, which raises KeyError. *)
Lemma write_level_absent (opts : options) (ids : list Z) (data : list float) (w : world) :
  variables w !! var_name opts = None ->
  var_name opts <> "beta" -> var_name opts <> "thickness" ->
  write_level pf opts ids data 1 0 w = Halt (KeyError (var_name opts)) w.
Proof.
  intros Habs Hb Ht. unfold write_level.
  apply String.eqb_neq in Hb, Ht. rewrite Hb, Ht. simpl.
  unfold bindM. rewrite name_in_keys_eq_False_never.
  unfold assign2, bindM, get_var. by rewrite Habs.
Qed.

End Dispatch.

(** C1 (thickness branch, lines 165-173): thickness 1 and bed topography 2 on
    one cell, new thickness 5.  Preserving the surface elevation asks for a
    bed topography of (1 + 2) - 5 = -2; the script stores 5 first, reads it
    back as the original thickness, and leaves the bed topography at 2. *)
Theorem thickness_write_bedrock_at_failing_input :
  convert ascending_first (run_options "id" "all" "thickness" "min" 0) one_cell
          (one_sample 5) (ice_world 1 2)
  = Done tt (ice_world 5 2)
  /\ (1 + 2 - 5)%float = (-2)%float
  /\ 2%float <> (-2)%float.
Proof.
  split; [vm_compute; reflexivity|].
  split; [reflexivity|].
  intros H. discriminate (f_equal (fun v => PrimFloat.eqb v 2) H).
Qed.

(** [uReconstructX] is a supported name that the dataset [ice_world] lacks:
    the run ends with KeyError at the first [dataset.variables[...]] and has
    written nothing, the write dispatch alone ends the same way, and the
    guard of line 176 is false. *)
Example absent_field_on_one_cell :
  let opts := run_options "id" "all" "uReconstructX" "min" 0 in
  convert ascending_first opts one_cell (one_sample 5) (ice_world 1 2)
  = Halt (KeyError "uReconstructX") (ice_world 1 2)
  /\ write_level ascending_first opts [1] [5%float] 1 0 (ice_world 1 2)
     = Halt (KeyError "uReconstructX") (ice_world 1 2)
  /\ name_in_keys_eq_False "uReconstructX" (ice_world 1 2) = Done false (ice_world 1 2).
Proof.
  cbv zeta. split; [vm_compute; reflexivity|].
  split; [vm_compute; reflexivity|].
  apply name_in_keys_eq_False_never.
Qed.

(** * Correspondence *)

Section Correspondence.

Variable pf : platform.

Lemma mapM_raise {A B} (f : A -> result B) (e : py_error) (l : list A) (a : A) :
  (forall a', a' ∈ l -> forall e', f a' = Raise e' -> e' = e) ->
  a ∈ l -> f a = Raise e -> mapM f l = Raise e.
Proof.
  intros Hall Hin Hf. induction l as [|h l IH]; [by apply elem_of_nil in Hin|].
  simpl. destruct (f h) as [b|e'] eqn:Hh; simpl.
  - apply elem_of_cons in Hin as [->|Hin]; [congruence|].
    rewrite IH; [done| |done].
    intros a' Ha'. apply Hall. by right.
  - f_equal. apply (Hall h); [by left|done].
Qed.

Lemma py_get_nat {A} (a : list A) (i : nat) (v : A) :
  a !! i = Some v -> py_get a (Z.of_nat i) = Ok v.
Proof.
  intros H. pose proof (lookup_lt_Some _ _ _ H) as Hlt.
  unfold py_get, py_index.
  replace (0 <=? Z.of_nat i) with true by (symmetry; apply Z.leb_le; lia).
  replace (Z.of_nat i <? Z.of_nat (length a)) with true by (symmetry; apply Z.ltb_lt; lia).
  simpl. rewrite Nat2Z.id. by rewrite H.
Qed.

Lemma py_get_raise {A} (a : list A) (i : Z) (e : py_error) :
  py_get a i = Raise e -> e = IndexError.
Proof.
  unfold py_get. destruct (py_index _ _); [destruct (_ !! _)|]; congruence.
Qed.

Lemma coord_index_raise (msh : mesh) (xe ye : float) (e : py_error) :
  coord_index pf msh xe ye = Raise e -> e = IndexError.
Proof.
  unfold coord_index. destruct (index_intersect _ _); congruence.
Qed.

(** A sample without a matching cell makes the whole search fail. *)
Lemma coord_ids_no_match (msh : mesh) (ex : samples) (i : nat) (xe ye : float) :
  x_exo_layer ex !! i = Some xe ->
  y_exo_layer ex !! i = Some ye ->
  index_intersect (np_where (close_to xe) (xCell msh))
                  (np_where (close_to ye) (yCell msh)) = [] ->
  coord_ids pf msh ex = Raise IndexError.
Proof.
  intros Hx Hy Hempty. unfold coord_ids.
  apply mapM_raise with (a := i).
  - intros a' _ e'.
    destruct (py_get (x_exo_layer ex) (Z.of_nat a')) eqn:E1; simpl;
      [|intros [= <-]; by apply py_get_raise in E1].
    destruct (py_get (y_exo_layer ex) (Z.of_nat a')) eqn:E2; simpl;
      [|intros [= <-]; by apply py_get_raise in E2].
    destruct (coord_index pf msh a a0) eqn:E3; simpl; [done|].
    intros [= <-]. by apply coord_index_raise in E3.
  - apply elem_of_seq. apply lookup_lt_Some in Hx. lia.
  - rewrite (py_get_nat _ _ _ Hx), (py_get_nat _ _ _ Hy). simpl.
    unfold coord_index. by rewrite Hempty.
Qed.

(** C6 (lines 118-129): in the [coord] method, when some sample has no
    target cell whose x and y both match within the tolerance, the run ends
    with the IndexError of [index_intersect[0]]; the dataset is as it was
    opened, and the id map has not been saved. *)
Theorem coord_no_match_fails_before_write
    (opts : options) (msh : mesh) (ex : samples) (w : world)
    (i : nat) (xe ye : float) (exo_var_name : string) :
  conversion_method opts = "coord" ->
  dict_get mpas_exodus_var_dic (var_name opts) = Ok exo_var_name ->
  x_exo_layer ex !! i = Some xe ->
  y_exo_layer ex !! i = Some ye ->
  index_intersect (np_where (close_to xe) (xCell msh))
                  (np_where (close_to ye) (yCell msh)) = [] ->
  convert pf opts msh ex w = Halt IndexError w.
Proof.
  intros Hm Hd Hx Hy Hempty.
  unfold convert, bindM, lift. rewrite Hd.
  unfold correspondence. rewrite Hm. simpl.
  unfold bindM, lift. by rewrite (coord_ids_no_match msh ex i xe ye Hx Hy Hempty).
Qed.

(** In the [id] method the loaded array loses its first entry and is used as
    it is. *)
Lemma id_ids_skips_first (declared : Z) (ids : list Z) :
  ids <> [] -> id_ids (declared :: ids) = Ok ids.
Proof. destruct ids; [done|]. reflexivity. Qed.

(** C3 (lines 130-134), as the script has it: in the [id] method the first
    stored value is skipped unread; whatever count it declares and however
    many samples there are, the entries after it are the map, and no
    mismatch is reported. *)
Theorem id_method_ignores_declared_count
    (opts : options) (msh : mesh) (ex : samples) (w : world)
    (declared : Z) (ids : list Z) :
  conversion_method opts = "id" ->
  usefulCellID ex = declared :: ids ->
  ids <> [] ->
  correspondence pf opts msh ex w = Done ids w.
Proof.
  intros Hm Hfile Hne. unfold correspondence. rewrite Hm. simpl.
  unfold lift. rewrite Hfile. by rewrite id_ids_skips_first.
Qed.

End Correspondence.

Lemma coord_no_match_fails_before_write_witness :
  convert ascending_first (run_options "coord" "all" "thickness" "min" 0) one_cell
          far_samples (ice_world 1 2)
  = Halt IndexError (ice_world 1 2).
Proof.
  apply (coord_no_match_fails_before_write ascending_first _ _ _ _
           1%nat 6%float 6%float "ice_thickness");
    vm_compute; reflexivity.
Defined.

Lemma id_method_ignores_declared_count_witness :
  correspondence ascending_first (run_options "id" "all" "surfaceTemperature" "min" 0)
                 line5 miscounted_samples (flat_world "surfaceTemperature" [0; 0; 0; 0; 0]%float)
  = Done [1; 2] (flat_world "surfaceTemperature" [0; 0; 0; 0; 0]%float).
Proof.
  apply (id_method_ignores_declared_count ascending_first _ _ _ _ 5 [1; 2]);
    [reflexivity | reflexivity | discriminate].
Defined.

(** C3, as claimed, fails: the id file declares 5 entries, there are 2
    samples, and the resolver returns the map [1; 2] without an error; the
    conversion goes on and writes both values. *)
Lemma id_method_count_mismatch_accepted :
  let opts := run_options "id" "all" "surfaceTemperature" "min" 0 in
  let w := flat_world "surfaceTemperature" [0; 0; 0; 0; 0]%float in
  hd 0 (usefulCellID miscounted_samples)
    <> Z.of_nat (length (x_exo_layer miscounted_samples))
  /\ correspondence ascending_first opts line5 miscounted_samples w = Done [1; 2] w
  /\ convert ascending_first opts line5 miscounted_samples w
     = Done tt (flat_world "surfaceTemperature" [7; 8; 0; 0; 0]%float).
Proof.
  cbv zeta. split; [discriminate|].
  split; vm_compute; reflexivity.
Qed.

(** * The mask *)

Section Mask.

Lemma np_set_where_zeros (n : nat) (cond : list bool) :
  length cond = n -> np_set_where (replicate n false) cond = Ok cond.
Proof.
  intros Hlen. unfold np_set_where. rewrite length_replicate, Hlen, Nat.eqb_refl.
  f_equal. subst n. induction cond as [|c cond IH]; [done|].
  simpl. rewrite IH. by destruct c.
Qed.

Lemma keepCellMask_init_grd (n : nat) (thickness bedrock : list float) :
  length thickness = n -> length bedrock = n ->
  keepCellMask_init "grd" n thickness bedrock = Ok (zip_with grounded thickness bedrock).
Proof.
  intros Ht Hb. unfold keepCellMask_init. simpl.
  unfold np_binop. rewrite Ht, Hb, Nat.eqb_refl. simpl.
  apply np_set_where_zeros. rewrite length_zip_with. lia.
Qed.

Lemma keepCellMask_init_all (n : nat) (thickness bedrock : list float) :
  length thickness = n ->
  keepCellMask_init "all" n thickness bedrock = Ok (map has_ice thickness).
Proof.
  intros Ht. unfold keepCellMask_init. simpl.
  apply np_set_where_zeros. by rewrite length_map.
Qed.

Lemma keepCellMask_init_other (scheme : string) (n : nat) (thickness bedrock : list float) :
  scheme <> "grd" -> scheme <> "all" ->
  keepCellMask_init scheme n thickness bedrock
  = Raise (SystemExit "wrong masking scheme! Set option k as all or grd!").
Proof.
  intros Hg Ha. unfold keepCellMask_init.
  apply String.eqb_neq in Hg, Ha. by rewrite Hg, Ha.
Qed.

Lemma build_mask_reads (opts : options) (msh : mesh) (w : world)
    (thickness bedrock : list float) :
  variables w !! "thickness" = Some (Data2 thickness) ->
  variables w !! "bedTopography" = Some (Data2 bedrock) ->
  build_mask opts msh w
  = lift (keepCellMask_init (mask_scheme opts) (nCells msh) thickness bedrock) w.
Proof.
  intros Ht Hb. unfold build_mask, bindM, read_all, in_keys, bindM, get_var, ret.
  rewrite Ht. rewrite bool_decide_eq_true_2 by (rewrite Hb; eauto).
  by rewrite Hb.
Qed.

(** C7 (lines 194-202): on a dataset with a thickness and a bed topography
    over all the cells, scheme [grd] marks a cell exactly when
    thickness * 910.0 / 1028.0 + bedTopography > 0 and scheme [all] exactly
    when thickness > 0; any other scheme ends the run with the masking-scheme
    message; in each case the dataset is left as it was. *)
Theorem mask_builder_predicates (opts : options) (msh : mesh) (w : world)
    (thickness bedrock : list float) :
  variables w !! "thickness" = Some (Data2 thickness) ->
  variables w !! "bedTopography" = Some (Data2 bedrock) ->
  length thickness = nCells msh ->
  length bedrock = nCells msh ->
  (mask_scheme opts = "grd" ->
   exists mask, build_mask opts msh w = Done mask w
     /\ length mask = nCells msh
     /\ forall i t b, thickness !! i = Some t -> bedrock !! i = Some b ->
          mask !! i = Some (0 <? t * 910.0 / 1028.0 + b)%float)
  /\ (mask_scheme opts = "all" ->
      exists mask, build_mask opts msh w = Done mask w
        /\ length mask = nCells msh
        /\ forall i t, thickness !! i = Some t -> mask !! i = Some (0 <? t)%float)
  /\ (mask_scheme opts <> "grd" -> mask_scheme opts <> "all" ->
      build_mask opts msh w
      = Halt (SystemExit "wrong masking scheme! Set option k as all or grd!") w).
Proof.
  intros Ht Hb Hlt Hlb.
  rewrite (build_mask_reads opts msh w thickness bedrock Ht Hb).
  split; [|split].
  - intros ->. rewrite keepCellMask_init_grd by done. simpl.
    eexists. split; [reflexivity|]. split.
    + rewrite length_zip_with. lia.
    + intros i t b Hi Hj. rewrite lookup_zip_with, Hi. simpl. by rewrite Hj.
  - intros ->. rewrite keepCellMask_init_all by done. simpl.
    eexists. split; [reflexivity|]. split.
    + by rewrite length_map.
    + intros i t Hi. by rewrite list_lookup_fmap, Hi.
  - intros Hg Ha. by rewrite keepCellMask_init_other.
Qed.

End Mask.

Lemma mask_builder_predicates_witness :
  let opts := run_options "id" "grd" "beta" "min" 0 in
  (mask_scheme opts = "grd" ->
   exists mask, build_mask opts one_cell (ice_world 1 2) = Done mask (ice_world 1 2)
     /\ length mask = nCells one_cell
     /\ forall i t b, [1%float] !! i = Some t -> [2%float] !! i = Some b ->
          mask !! i = Some (0 <? t * 910.0 / 1028.0 + b)%float)
  /\ (mask_scheme opts = "all" ->
      exists mask, build_mask opts one_cell (ice_world 1 2) = Done mask (ice_world 1 2)
        /\ length mask = nCells one_cell
        /\ forall i t, [1%float] !! i = Some t -> mask !! i = Some (0 <? t)%float)
  /\ (mask_scheme opts <> "grd" -> mask_scheme opts <> "all" ->
      build_mask opts one_cell (ice_world 1 2)
      = Halt (SystemExit "wrong masking scheme! Set option k as all or grd!") (ice_world 1 2)).
Proof.
  apply (mask_builder_predicates (run_options "id" "grd" "beta" "min" 0) one_cell
           (ice_world 1 2) [1%float] [2%float]); reflexivity.
Defined.

(** * Neighbour gathering *)

Section Gathering.

Lemma elem_of_np_where_from {A} (p : A -> bool) (k : nat) (l : list A) (i : nat) :
  i ∈ np_where_from p k l <-> (k <= i)%nat /\ exists a, l !! (i - k)%nat = Some a /\ p a = true.
Proof.
  revert k. induction l as [|a l IH]; intros k; simpl.
  - split; [intros H; by apply elem_of_nil in H|]. by intros (_ & a & ? & _).
  - assert (Hrec : i ∈ np_where_from p (S k) l <->
              (k < i)%nat /\ exists a', (a :: l) !! (i - k)%nat = Some a' /\ p a' = true).
    { rewrite IH. split.
      - intros (Hle & a' & Hl & Hp). split; [lia|].
        exists a'. split; [|done].
        replace (i - k)%nat with (S (i - S k)) by lia. done.
      - intros (Hlt & a' & Hl & Hp). split; [lia|].
        exists a'. split; [|done].
        replace (i - k)%nat with (S (i - S k)) in Hl by lia. done. }
    destruct (p a) eqn:Hpa.
    + rewrite elem_of_cons, Hrec. split.
      * intros [->|(Hlt & Hex)]; [|split; [lia|done]].
        split; [lia|]. exists a. by rewrite Nat.sub_diag.
      * intros (Hle & a' & Hl & Hp).
        destruct (decide (i = k)) as [->|Hne]; [by left|].
        right. split; [lia|]. by exists a'.
    + rewrite Hrec. split.
      * intros (Hlt & Hex). split; [lia|done].
      * intros (Hle & a' & Hl & Hp).
        destruct (decide (i = k)) as [->|Hne].
        -- rewrite Nat.sub_diag in Hl. simpl in Hl. congruence.
        -- split; [lia|]. by exists a'.
Qed.

Lemma elem_of_np_where {A} (p : A -> bool) (l : list A) (i : nat) :
  i ∈ np_where p l <-> exists a, l !! i = Some a /\ p a = true.
Proof.
  unfold np_where. rewrite elem_of_np_where_from, Nat.sub_0_r.
  split; [by intros [_ ?]|]. intros ?. split; [lia|done].
Qed.

(** The cells searched in a pass are the ones the mask leaves out. *)
Lemma searchCells_inactive (mask : list bool) (i : nat) :
  i ∈ np_where negb mask <-> mask !! i = Some false.
Proof.
  rewrite elem_of_np_where. split.
  - intros (b & Hb & Hn). by destruct b.
  - intros H. by exists false.
Qed.

Lemma mapM_Ok {A B} (f : A -> result B) (l : list A) (bs : list B) :
  mapM f l = Ok bs -> Forall2 (fun a b => f a = Ok b) l bs.
Proof.
  revert bs. induction l as [|a l IH]; intros bs; simpl.
  - intros [= <-]. constructor.
  - destruct (f a) as [b|] eqn:Hb; simpl; [|done].
    destruct (mapM f l) as [bs'|]; simpl; [|done].
    intros [= <-]. constructor; [done|]. by apply IH.
Qed.

Lemma mapM_ext_in {A B} (f g : A -> result B) (l : list A) :
  (forall a, a ∈ l -> f a = g a) -> mapM f l = mapM g l.
Proof.
  induction l as [|a l IH]; intros H; simpl; [done|].
  rewrite H by (by left). rewrite IH; [done|].
  intros a' Ha'. apply H. by right.
Qed.

(** Selecting at the positions [np.nonzero] returns is [keep_where]. *)
Lemma np_select_where {A} (pre ids : list A) (bs : list bool) :
  length bs = length ids ->
  np_select (app pre ids) (np_where_from id (length pre) bs) = keep_where ids bs.
Proof.
  revert pre bs. induction ids as [|j ids IH]; intros pre [|b bs] Hlen;
    simpl in *; try done.
  assert (Hrec : np_select (app pre (j :: ids)) (np_where_from id (S (length pre)) bs)
                 = keep_where ids bs).
  { specialize (IH (app pre [j]) bs).
    rewrite <- app_assoc, length_app in IH. simpl in IH.
    rewrite Nat.add_1_r in IH. apply IH. lia. }
  destruct b; simpl; [|done].
  unfold np_select in *. simpl.
  rewrite lookup_app_r, Nat.sub_diag by lia. simpl. by rewrite Hrec.
Qed.

Lemma keep_where_active (mask : list bool) (ids : list Z) (bs : list bool) :
  Forall2 (fun j b => py_get mask j = Ok b) ids bs ->
  keep_where ids bs = filter (fun j => active_at mask j = true) ids
  /\ length (keep_where ids bs) = np_count_nonzero id bs.
Proof.
  unfold np_count_nonzero.
  induction 1 as [|j b ids bs Hj _ [IH1 IH2]]; [done|].
  assert (Hab : active_at mask j = b).
  { unfold active_at. rewrite Hj. by destruct b. }
  simpl. destruct b.
  - rewrite !filter_cons_True by done.
    split; [by rewrite IH1 | simpl; by rewrite IH2].
  - rewrite !filter_cons_False by (rewrite ?Hab; done).
    split; assumption.
Qed.

(** [active_among] returns the ids at which the mask holds, and its
    assertion never fails. *)
Lemma active_among_filter (mask : list bool) (ids : list Z) (bs : list bool) :
  np_take mask ids = Ok bs ->
  active_among mask ids = Ok (filter (fun j => active_at mask j = true) ids).
Proof.
  intros Htake. unfold active_among. rewrite Htake. simpl.
  apply mapM_Ok in Htake.
  pose proof (Forall2_length _ _ _ Htake) as Hlen.
  unfold np_where.
  pose proof (np_select_where [] ids bs (eq_sym Hlen)) as Hsel.
  simpl in Hsel. rewrite Hsel.
  destruct (keep_where_active mask ids bs Htake) as [Heq Hcount].
  by rewrite Hcount, Nat.eqb_refl, Heq.
Qed.

Lemma active_among_Ok (mask : list bool) (ids nonzero_id : list Z) :
  active_among mask ids = Ok nonzero_id ->
  nonzero_id = filter (fun j => active_at mask j = true) ids.
Proof.
  intros H. destruct (np_take mask ids) as [bs|e] eqn:Htake.
  - rewrite (active_among_filter mask ids bs Htake) in H. congruence.
  - unfold active_among in H. by rewrite Htake in H.
Qed.

(** An id chosen as an active neighbour names a cell at which the mask the
    neighbours are classified with holds. *)
Lemma active_among_elem (mask : list bool) (ids nonzero_id : list Z) (j : Z) :
  active_among mask ids = Ok nonzero_id ->
  j ∈ nonzero_id ->
  j ∈ ids /\ exists k, py_index (length mask) j = Some k /\ mask !! k = Some true.
Proof.
  intros H Hj. rewrite (active_among_Ok _ _ _ H) in Hj.
  apply list_elem_of_filter in Hj as [Hact Hin]. split; [done|].
  unfold active_at, py_get in Hact.
  destruct (py_index (length mask) j) as [k|]; [|done].
  exists k. split; [done|].
  destruct (mask !! k) as [[]|]; done.
Qed.

End Gathering.

(** * Extrapolation *)

Section Extrapolation.

Variable opts : options.
Variable msh : mesh.

Lemma py_set_nat {A} (a a' : list A) (i : nat) (v : A) :
  py_set a (Z.of_nat i) v = Ok a' -> (i < length a)%nat /\ a' = <[i := v]> a.
Proof.
  unfold py_set, py_index.
  destruct (Z.ltb_spec (Z.of_nat i) (Z.of_nat (length a))) as [Hlt|Hge].
  - replace (0 <=? Z.of_nat i) with true by (symmetry; apply Z.leb_le; lia).
    simpl. rewrite Nat2Z.id. intros [= <-]. split; [lia|done].
  - rewrite andb_false_r.
    replace (Z.of_nat i <? 0) with false by (symmetry; apply Z.ltb_ge; lia).
    by rewrite andb_false_r.
Qed.

(** What the loop body does to the two arrays: nothing when the cell has no
    active neighbour, otherwise one value and one mask bit at the cell. *)
Lemma extrapolate_cell_Ok (mask : list bool) (fld fld' : list float) (next next' : list bool)
    (iCell : nat) :
  extrapolate_cell opts msh mask (fld, next) iCell = Ok (fld', next') ->
  (~ has_active_neighbor msh mask iCell /\ fld' = fld /\ next' = next)
  \/ (has_active_neighbor msh mask iCell
      /\ (iCell < length fld)%nat /\ (iCell < length next)%nat
      /\ (exists v, fld' = <[iCell := v]> fld) /\ next' = <[iCell := true]> next).
Proof.
  unfold extrapolate_cell.
  destruct (neighborCellId msh iCell) as [ids|] eqn:Hids; simpl; [|done].
  destruct (active_among mask ids) as [nz|] eqn:Hnz; simpl; [|done].
  destruct nz as [|j nz]; simpl.
  { intros [= <- <-]. left. split; [|done].
    intros (ids' & nz' & H1 & H2 & H3). congruence. }
  assert (Hact : has_active_neighbor msh mask iCell).
  { exists ids, (j :: nz). by repeat split. }
  destruct (gather msh fld iCell (j :: nz)) as [[ds var_adj]|]; simpl; [|done].
  intros H. right. split; [done|].
  destruct (if String.eqb (extrapolation opts) "idw" then _ else _) as [fld1|] eqn:Hw;
    simpl in H; [|done].
  destruct (py_set next (Z.of_nat iCell) true) as [next1|] eqn:Hn; simpl in H; [|done].
  injection H as <- <-.
  apply py_set_nat in Hn as [Hlt ->].
  assert (Hf : exists v, py_set fld (Z.of_nat iCell) v = Ok fld1).
  { destruct (String.eqb (extrapolation opts) "idw"); [eauto|].
    destruct (String.eqb (extrapolation opts) "min"); [|done].
    destruct (np_min var_adj); simpl in Hw; [eauto|done]. }
  destruct Hf as [v Hv]. apply py_set_nat in Hv as [Hlf ->].
  repeat split; eauto.
Qed.

(** Over any stretch of a pass the next mask keeps its length and its set
    bits, and a cell of the stretch ends up set exactly when it was set
    before or has an active neighbour under the mask of the pass. *)
Lemma pass_progress (mask : list bool) (l : list nat) (fld fld' : list float)
    (next next' : list bool) :
  foldM (extrapolate_cell opts msh mask) l (fld, next) = Ok (fld', next') ->
  length next' = length next
  /\ length fld' = length fld
  /\ (forall j, next' !! j = Some true <->
                next !! j = Some true
                \/ (j ∈ l /\ (j < length next)%nat /\ has_active_neighbor msh mask j))
  /\ ((forall j, j ∈ l -> ~ has_active_neighbor msh mask j) -> fld' = fld /\ next' = next)
  /\ (forall k, k ∉ l -> fld' !! k = fld !! k).
Proof.
  revert fld next. induction l as [|a l IH]; intros fld next; cbn [foldM].
  - intros [= <- <-]. repeat split; try done.
    + intros ?. by left.
    + intros [?|(H & _)]; [done|]. by apply elem_of_nil in H.
  - destruct (extrapolate_cell opts msh mask (fld, next) a) as [[fld1 next1]|] eqn:Hstep;
      cbn [rbind]; [|done].
    intros Hrest. apply IH in Hrest as (Hlen & Hlenf & Hbits & Hnone & Hother).
    apply extrapolate_cell_Ok in Hstep
      as [(Hno & -> & ->)|(Hact & Hlf & Hln & [v ->] & ->)].
    + split; [done|]. split; [done|]. split; [|split].
      * intros j. rewrite Hbits. split.
        -- intros [?|(Hj & ? & ?)]; [by left|]. right. split; [by right|done].
        -- intros [?|(Hj & Hlt & Hj')]; [by left|].
           apply elem_of_cons in Hj as [->|Hj]; [done|]. by right.
      * intros Hall. apply Hnone. intros j Hj. apply Hall. by right.
      * intros k Hk. apply Hother. intros Hin. apply Hk. by right.
    + rewrite length_insert in Hlen. rewrite length_insert in Hlenf.
      split; [done|]. split; [done|]. split; [|split].
      * intros j. rewrite Hbits. rewrite length_insert.
        destruct (decide (j = a)) as [->|Hne].
        -- rewrite list_lookup_insert_eq by done. split.
           ++ intros _. right. split; [by left|done].
           ++ intros _. by left.
        -- rewrite list_lookup_insert_ne by done. split.
           ++ intros [?|(Hj & ? & ?)]; [by left|]. right. split; [by right|done].
           ++ intros [?|(Hj & Hlt & Hj')]; [by left|].
              apply elem_of_cons in Hj as [->|Hj]; [done|]. by right.
      * intros Hall. exfalso. apply (Hall a); [by left|done].
      * intros k Hk. rewrite Hother by (intros Hin; apply Hk; by right).
        apply list_lookup_insert_ne. intros ->. apply Hk. by left.
Qed.

(** A pass that leaves the next mask as the mask it began with has touched
    no value: every write of a value comes with a newly set bit. *)
Lemma pass_without_activation (mask : list bool) (fld fld' : list float) :
  extrapolation_pass opts msh mask (fld, mask) = Ok (fld', mask) -> fld' = fld.
Proof.
  intros Hpass. unfold extrapolation_pass in Hpass.
  apply pass_progress in Hpass as (_ & _ & Hbits & Hnone & _).
  apply Hnone. intros j Hj Hact.
  apply searchCells_inactive in Hj as Hfalse.
  assert (Htrue : mask !! j = Some true).
  { apply Hbits. right. split; [done|]. split; [|done]. by apply lookup_lt_Some in Hfalse. }
  congruence.
Qed.

(** Values read at active neighbours are the same in two fields that agree
    wherever the mask holds. *)
Lemma gather_agree (mask : list bool) (fld fld0 : list float) (iCell : nat)
    (ids nonzero_id : list Z) :
  active_among mask ids = Ok nonzero_id ->
  length fld = length mask -> length fld0 = length mask ->
  (forall k, mask !! k = Some true -> fld !! k = fld0 !! k) ->
  gather msh fld iCell nonzero_id = gather msh fld0 iCell nonzero_id.
Proof.
  intros Hact Hl Hl0 Hagree.
  assert (Htake : np_take fld nonzero_id = np_take fld0 nonzero_id).
  { apply mapM_ext_in. intros j Hj.
    destruct (active_among_elem mask ids nonzero_id j Hact Hj) as (_ & k & Hk & Hm).
    unfold py_get. rewrite Hl, Hl0, Hk. by rewrite (Hagree k Hm). }
  unfold gather. by rewrite Htake.
Qed.

Lemma extrapolate_cell_agree (mask : list bool) (fld fld0 : list float) (next : list bool)
    (iCell : nat) :
  length fld = length mask -> length fld0 = length mask ->
  (forall k, mask !! k = Some true -> fld !! k = fld0 !! k) ->
  extrapolate_cell opts msh mask (fld, next) iCell
  = extrapolate_cell_frozen opts msh mask fld0 (fld, next) iCell.
Proof.
  intros Hl Hl0 Hagree. unfold extrapolate_cell, extrapolate_cell_frozen.
  destruct (neighborCellId msh iCell) as [ids|]; [|done]. cbn [rbind].
  destruct (active_among mask ids) as [nz|] eqn:Hact; [|done]. cbn [rbind].
  destruct (0 <? length nz)%nat; [|done].
  by rewrite (gather_agree mask fld fld0 iCell ids nz Hact Hl Hl0 Hagree).
Qed.

(** Reading the field as it stands or as it was when the pass began makes
    no difference over any stretch of searched cells. *)
Lemma pass_agree (mask : list bool) (fld0 : list float) (l : list nat)
    (fld : list float) (next : list bool) :
  (forall i, i ∈ l -> mask !! i = Some false) ->
  length fld = length mask -> length fld0 = length mask ->
  (forall k, mask !! k = Some true -> fld !! k = fld0 !! k) ->
  foldM (extrapolate_cell opts msh mask) l (fld, next)
  = foldM (extrapolate_cell_frozen opts msh mask fld0) l (fld, next).
Proof.
  revert fld next. induction l as [|a l IH]; intros fld next Hl Hlen Hlen0 Hagree;
    cbn [foldM]; [done|].
  rewrite <- (extrapolate_cell_agree mask fld fld0 next a Hlen Hlen0 Hagree).
  destruct (extrapolate_cell opts msh mask (fld, next) a) as [[fld1 next1]|] eqn:Hstep;
    cbn [rbind]; [|done].
  assert (Ha : mask !! a = Some false) by (apply Hl; by left).
  apply extrapolate_cell_Ok in Hstep
    as [(_ & -> & ->)|(_ & _ & _ & [v ->] & ->)].
  - apply IH; try done. intros i Hi. apply Hl. by right.
  - apply IH.
    + intros i Hi. apply Hl. by right.
    + by rewrite length_insert.
    + done.
    + intros k Hk. rewrite list_lookup_insert_ne by congruence. by apply Hagree.
Qed.

Lemma pass_frozen_same (mask : list bool) (fld : list float) (next : list bool) :
  length fld = length mask ->
  extrapolation_pass opts msh mask (fld, next)
  = extrapolation_pass_frozen opts msh mask (fld, next).
Proof.
  intros Hlen. unfold extrapolation_pass, extrapolation_pass_frozen.
  apply pass_agree; try done. intros i. apply searchCells_inactive.
Qed.

(** The cell an active neighbour id refers to is not searched in the pass. *)
Lemma active_neighbor_not_searched (mask : list bool) (ids nonzero_id : list Z) (j : Z) :
  active_among mask ids = Ok nonzero_id ->
  j ∈ nonzero_id ->
  exists k, py_index (length mask) j = Some k
            /\ mask !! k = Some true
            /\ k ∉ np_where negb mask.
Proof.
  intros Hact Hj.
  destruct (active_among_elem mask ids nonzero_id j Hact Hj) as (_ & k & Hk & Hm).
  exists k. repeat split; try done.
  rewrite searchCells_inactive. congruence.
Qed.

(** One pass grows the mask by the cells that have an active neighbour. *)
Lemma pass_one_ring (mask : list bool) (fld fld' : list float) (next' : list bool) :
  extrapolation_pass opts msh mask (fld, mask) = Ok (fld', next') ->
  length next' = length mask
  /\ forall i, next' !! i = Some true <->
               mask !! i = Some true
               \/ (mask !! i = Some false /\ has_active_neighbor msh mask i).
Proof.
  intros Hpass. unfold extrapolation_pass in Hpass.
  apply pass_progress in Hpass as (Hlen & _ & Hbits & _ & _).
  split; [done|]. intros i. rewrite Hbits. split.
  - intros [?|(Hi & _ & Hact)]; [by left|]. right.
    split; [by apply searchCells_inactive|done].
  - intros [?|(Hi & Hact)]; [by left|]. right.
    split; [by apply searchCells_inactive|].
    split; [by apply lookup_lt_Some in Hi|done].
Qed.

(** Within a pass, neighbours are classified with the mask copied at its
    head, and every id chosen as an active neighbour names a cell set in
    that mask, which the pass does not search and so does not fill.  With a
    field as long as the mask, the pass gives the result of the pass that
    reads only the values held when it began. *)
Lemma pass_uses_frozen_mask_and_values (mask : list bool) (fld : list float)
    (next : list bool) :
  length fld = length mask ->
  extrapolation_pass opts msh mask (fld, next)
  = extrapolation_pass_frozen opts msh mask (fld, next)
  /\ (forall iCell ids nonzero_id j,
        iCell ∈ np_where negb mask ->
        neighborCellId msh iCell = Ok ids ->
        active_among mask ids = Ok nonzero_id ->
        j ∈ nonzero_id ->
        exists k, py_index (length mask) j = Some k
                  /\ mask !! k = Some true
                  /\ k ∉ np_where negb mask)
  /\ (forall fld' next',
        extrapolation_pass opts msh mask (fld, mask) = Ok (fld', next') ->
        length next' = length mask
        /\ (forall i, next' !! i = Some true <->
                      mask !! i = Some true
                      \/ (mask !! i = Some false /\ has_active_neighbor msh mask i))
        /\ (forall k, mask !! k = Some true -> fld' !! k = fld !! k)).
Proof.
  intros Hlen. split; [by apply pass_frozen_same|]. split.
  - intros iCell ids nonzero_id j _ _ Hact Hj.
    by apply (active_neighbor_not_searched mask ids nonzero_id j).
  - intros fld' next' Hpass.
    destruct (pass_one_ring mask fld fld' next' Hpass) as [Hl Hring].
    split; [done|]. split; [done|].
    intros k Hk. unfold extrapolation_pass in Hpass.
    apply pass_progress in Hpass as (_ & _ & _ & _ & Hother).
    apply Hother. rewrite searchCells_inactive. congruence.
Qed.

End Extrapolation.

(** * The extrapolation loop and the smoothing loop *)

Section Loop.

Variable opts : options.
Variable msh : mesh.

(** A state whose pass returns it unchanged is repeated for ever. *)
Lemma stalled_state_loops (mask : list bool) (fld : list float) :
  all_active msh mask = false ->
  extrapolation_pass opts msh mask (fld, mask) = Ok (fld, mask) ->
  forall fuel, extrapolation_loop fuel opts msh (ext_start mask fld) = None.
Proof.
  intros Hleft Hpass fuel. induction fuel as [|fuel IH]; cbn [extrapolation_loop];
    cbn [ext_start keepCellMask keepCellMaskNew field]; rewrite Hleft; [done|].
  rewrite Hpass. apply IH.
Qed.

(** No test of progress stands in the loop: after a pass that sets no bit
    of the next mask, with the count of set bits short of [nCells], every
    later pass is the same pass. *)
Lemma stalled_loop_never_returns (st : ext_state) (fld' : list float) :
  all_active msh (keepCellMask st) = false ->
  all_active msh (keepCellMaskNew st) = false ->
  extrapolation_pass opts msh (keepCellMaskNew st) (field st, keepCellMaskNew st)
  = Ok (fld', keepCellMaskNew st) ->
  forall fuel, extrapolation_loop fuel opts msh st = None.
Proof.
  intros Hin Hleft Hpass fuel.
  pose proof (pass_without_activation opts msh _ _ _ Hpass) as ->.
  destruct fuel as [|fuel]; cbn [extrapolation_loop]; rewrite Hin; [done|].
  rewrite Hpass. by apply stalled_state_loops.
Qed.

(** C2 (lines 219-256), as the script has it: when a pass sets no new cell
    while the loop condition still counts cells missing, nothing is
    reported; the loop goes on with the same arrays and does not return
    within any number of passes. *)
Theorem zero_progress_pass_loops_forever (st : ext_state) (fld' : list float)
    (fuel : nat) :
  var_name opts <> "thickness" ->
  all_active msh (keepCellMask st) = false ->
  all_active msh (keepCellMaskNew st) = false ->
  extrapolation_pass opts msh (keepCellMaskNew st) (field st, keepCellMaskNew st)
  = Ok (fld', keepCellMaskNew st) ->
  extrapolation_phase fuel opts msh st = None.
Proof.
  intros Hname Hin Hleft Hpass. unfold extrapolation_phase.
  apply String.eqb_neq in Hname. rewrite Hname.
  by apply (stalled_loop_never_returns st fld').
Qed.

(** C8 (lines 215-217): for the thickness field the loop is not entered;
    with any bound on the passes, zero included, the phase returns the field
    and both masks as they were, so no cell is filled by extrapolation. *)
Theorem thickness_skips_extrapolation (fuel : nat) (st : ext_state) :
  var_name opts = "thickness" ->
  extrapolation_phase fuel opts msh st = Some (Ok st).
Proof.
  intros Hname. unfold extrapolation_phase. by rewrite Hname.
Qed.

(** C9 (lines 260-299): with zero requested iterations the smoothing loop
    body never runs and the field is returned as it was, for every variable
    name and every pair of masks. *)
Theorem zero_iterations_smoothing_is_noop (keepCellMaskOld mask : list bool)
    (fld : list float) :
  smooth_iter_num opts = 0 ->
  smoothing opts msh keepCellMaskOld mask fld = Ok fld.
Proof.
  intros Hzero. unfold smoothing. by rewrite Hzero.
Qed.

End Loop.

Lemma zero_progress_pass_loops_forever_witness :
  extrapolation_phase 1000 (run_options "id" "all" "beta" "min" 3) isolated3
    {| keepCellMask := [true; false; false]; keepCellMaskNew := [true; true; false];
       field := [10; 10; 0]%float |}
  = None.
Proof.
  apply (zero_progress_pass_loops_forever _ _ _ [10; 10; 0]%float);
    [discriminate | reflexivity | reflexivity | vm_compute; reflexivity].
Defined.

(** C2, as claimed, fails: cell 2 of [isolated3] has no neighbour.  The
    first pass fills cell 1 from cell 0, the second fills nothing, and from
    then on the loop repeats it: no bound on the passes gives a result, be it
    a field or an error. *)
Lemma isolated_cell_never_reported :
  ~ exists fuel r,
      extrapolation_phase fuel (run_options "id" "all" "beta" "min" 3) isolated3
        (ext_start [true; false; false] [10; 0; 0]%float) = Some r.
Proof.
  intros (fuel & r & H).
  assert (Hnone : extrapolation_phase fuel (run_options "id" "all" "beta" "min" 3) isolated3
                    (ext_start [true; false; false] [10; 0; 0]%float) = None).
  { destruct fuel as [|fuel]; [reflexivity|].
    transitivity (extrapolation_loop fuel (run_options "id" "all" "beta" "min" 3) isolated3
                    {| keepCellMask := [true; false; false];
                       keepCellMaskNew := [true; true; false];
                       field := [10; 10; 0]%float |}); [reflexivity|].
    apply (stalled_loop_never_returns _ _ _ [10; 10; 0]%float);
      [reflexivity | reflexivity | vm_compute; reflexivity]. }
  congruence.
Qed.

Lemma thickness_skips_extrapolation_witness :
  extrapolation_phase 0 (run_options "id" "all" "thickness" "min" 3) line5
    (ext_start [true; false; false; false; true] [10; 0; 0; 0; 20]%float)
  = Some (Ok (ext_start [true; false; false; false; true] [10; 0; 0; 0; 20]%float)).
Proof.
  apply thickness_skips_extrapolation. reflexivity.
Defined.

Lemma zero_iterations_smoothing_is_noop_witness :
  smoothing (run_options "id" "all" "temperature" "min" 0) line5
    [true; false; false; false; true] [true; true; true; true; true]
    [10; 10; 10; 20; 20]%float
  = Ok [10; 10; 10; 20; 20]%float.
Proof.
  apply zero_iterations_smoothing_is_noop. reflexivity.
Defined.

(** The scenario of a line of five cells with the minimum rule: one ring per
    pass, and cell 2 takes the smaller of the two values that reached its
    neighbours. *)
Example line5_min_rule :
  extrapolation_pass (run_options "id" "all" "beta" "min" 3) line5
    [true; false; false; false; true]
    ([10; 0; 0; 0; 20]%float, [true; false; false; false; true])
  = Ok ([10; 10; 0; 20; 20]%float, [true; true; false; true; true])
  /\ extrapolation_phase 3 (run_options "id" "all" "beta" "min" 3) line5
       (ext_start [true; false; false; false; true] [10; 0; 0; 0; 20]%float)
     = Some (Ok (ext_start [true; true; true; true; true] [10; 10; 10; 20; 20]%float)).
Proof. split; vm_compute; reflexivity. Qed.

(** * The padding value in neighbour lists *)

Section Sentinel.

Variable msh : mesh.

Lemma py_index_last (n : nat) : (0 < n)%nat -> py_index n (-1) = Some (n - 1)%nat.
Proof.
  intros Hn. unfold py_index. simpl.
  replace (- Z.of_nat n <=? -1) with true by (symmetry; apply Z.leb_le; lia).
  simpl. f_equal. lia.
Qed.

Lemma elem_of_np_select {A} (a : list A) (idx : list nat) (v : A) :
  v ∈ np_select a idx <-> exists i, i ∈ idx /\ a !! i = Some v.
Proof. unfold np_select. apply list_elem_of_omap. Qed.

(** Smoothing keeps no id equal to -1. *)
Lemma cell_nonzero_id_drops_padding (ids : list Z) : -1 ∉ cell_nonzero_id ids.
Proof.
  unfold cell_nonzero_id. rewrite elem_of_np_select.
  intros (i & Hi & Hlook).
  apply elem_of_np_where in Hi as (c & Hc & Hp).
  assert (c = -1) as -> by congruence. done.
Qed.

End Sentinel.

(** On [line5_padded], whose cell 0 has its padding slot inside its declared
    degree: with only cell 4 set in the mask, an extrapolation pass fills
    cell 0 with the value of cell 4, four cells away; a smoothing pass over
    cell 0, with every cell set, takes the 5 of cell 1 and not the smaller 1
    of cell 4. *)
Example padding_slot_on_line5 :
  extrapolation_pass (run_options "id" "all" "beta" "min" 3) line5_padded
    [false; false; false; false; true]
    ([0; 0; 0; 0; 20]%float, [false; false; false; false; true])
  = Ok ([20; 0; 0; 20; 20]%float, [true; false; false; true; true])
  /\ smoothing_pass (run_options "id" "all" "beta" "min" 3) line5_padded
       [false; true; true; true; true] [true; true; true; true; true]
       [0; 5; 2; 3; 1]%float
     = Ok [5; 5; 2; 3; 1]%float.
Proof. split; vm_compute; reflexivity. Qed.

(** * How far the extrapolation loop goes *)

Section LoopBounds.

Variable opts : options.
Variable msh : mesh.

Lemma NoDup_np_where_from {A} (p : A -> bool) (k : nat) (l : list A) :
  NoDup (np_where_from p k l).
Proof.
  revert k. induction l as [|a l IH]; intros k; simpl; [constructor|].
  destruct (p a); [|apply IH].
  constructor; [|apply IH].
  rewrite elem_of_np_where_from. intros [Hle _]. lia.
Qed.

Lemma n_inactive_insert (mask : list bool) (i : nat) :
  mask !! i = Some false ->
  S (n_inactive (<[i := true]> mask)) = n_inactive mask.
Proof.
  revert i. induction mask as [|b mask IH]; intros [|i] H; simpl in *; try done.
  - by injection H as ->.
  - destruct b; [by apply IH|]. f_equal. by apply IH.
Qed.

(** Over a stretch of distinct cells that are still unset, the pass either
    changes nothing or leaves fewer cells unset. *)
Lemma stretch_stalls_or_shrinks (mask : list bool) (l : list nat)
    (fld fld' : list float) (next next' : list bool) :
  NoDup l ->
  (forall i, i ∈ l -> next !! i = Some false) ->
  foldM (extrapolate_cell opts msh mask) l (fld, next) = Ok (fld', next') ->
  (fld' = fld /\ next' = next) \/ (n_inactive next' < n_inactive next)%nat.
Proof.
  revert fld next. induction l as [|a l IH]; intros fld next Hnd Hunset; cbn [foldM].
  - intros [= <- <-]. by left.
  - destruct (extrapolate_cell opts msh mask (fld, next) a) as [[fld1 next1]|] eqn:Hstep;
      cbn [rbind]; [|done].
    intros Hrest. apply NoDup_cons in Hnd as [Hnotin Hnd].
    apply extrapolate_cell_Ok in Hstep
      as [(_ & -> & ->)|(_ & _ & _ & [v ->] & ->)].
    + apply (IH fld next); try done. intros i Hi. apply Hunset. by right.
    + right.
      assert (Ha : next !! a = Some false) by (apply Hunset; by left).
      pose proof (n_inactive_insert next a Ha) as Hdrop.
      apply IH in Hrest as [[_ ->]|Hlt]; try done; try lia.
      intros i Hi. rewrite list_lookup_insert_ne by (intros ->; done).
      apply Hunset. by right.
Qed.

Lemma pass_stalls_or_shrinks (mask : list bool) (fld fld' : list float) (next' : list bool) :
  extrapolation_pass opts msh mask (fld, mask) = Ok (fld', next') ->
  (fld' = fld /\ next' = mask) \/ (n_inactive next' < n_inactive mask)%nat.
Proof.
  apply stretch_stalls_or_shrinks; [apply NoDup_np_where_from|].
  intros i. apply searchCells_inactive.
Qed.

(** More passes allowed do not change a result already reached. *)
Lemma extrapolation_loop_more_fuel (fuel fuel' : nat) (st : ext_state) (r : result ext_state) :
  (fuel <= fuel')%nat ->
  extrapolation_loop fuel opts msh st = Some r ->
  extrapolation_loop fuel' opts msh st = Some r.
Proof.
  revert fuel' st. induction fuel as [|fuel IH]; intros fuel' st Hle;
    cbn [extrapolation_loop].
  - destruct (all_active msh (keepCellMask st)) eqn:Hall; [|done].
    intros <-. destruct fuel'; cbn [extrapolation_loop]; by rewrite Hall.
  - destruct fuel' as [|fuel']; [lia|]. cbn [extrapolation_loop].
    destruct (all_active msh (keepCellMask st)); [done|].
    destruct (extrapolation_pass opts msh (keepCellMaskNew st)
                (field st, keepCellMaskNew st)) as [[fld new]|]; [|done].
    apply IH. lia.
Qed.

Lemma loop_silent_then_never (n : nat) (st : ext_state) :
  (n_inactive (keepCellMaskNew st) <= n)%nat ->
  extrapolation_loop (S n) opts msh st = None ->
  forall fuel, extrapolation_loop fuel opts msh st = None.
Proof.
  revert st. induction n as [|n IH]; intros st Hn Hnone.
  - cbn [extrapolation_loop] in Hnone.
    destruct (all_active msh (keepCellMask st)) eqn:Hin; [done|].
    destruct (extrapolation_pass opts msh (keepCellMaskNew st)
                (field st, keepCellMaskNew st)) as [[fld new]|] eqn:Hpass; [|done].
    destruct (all_active msh (keepCellMaskNew st)) eqn:Hleft;
      cbn [keepCellMask] in Hnone; [by rewrite Hleft in Hnone|].
    apply pass_stalls_or_shrinks in Hpass as Hcase.
    destruct Hcase as [[-> ->]|Hlt]; [|lia].
    intros fuel. by apply (stalled_loop_never_returns opts msh st (field st)).
  - remember (S n) as m. cbn [extrapolation_loop] in Hnone.
    destruct (all_active msh (keepCellMask st)) eqn:Hin; [done|].
    destruct (extrapolation_pass opts msh (keepCellMaskNew st)
                (field st, keepCellMaskNew st)) as [[fld new]|] eqn:Hpass; [|done].
    apply pass_stalls_or_shrinks in Hpass as Hcase.
    destruct Hcase as [[-> ->]|Hlt].
    + subst m. cbn [extrapolation_loop keepCellMask] in Hnone.
      destruct (all_active msh (keepCellMaskNew st)) eqn:Hleft; [done|].
      intros fuel. by apply (stalled_loop_never_returns opts msh st (field st)).
    + subst m.
      assert (Hrest : forall fuel,
                 extrapolation_loop fuel opts msh
                   {| keepCellMask := keepCellMaskNew st; keepCellMaskNew := new;
                      field := fld |} = None).
      { apply IH; [cbn [keepCellMaskNew]; lia|done]. }
      intros [|fuel]; cbn [extrapolation_loop]; rewrite Hin; [done|].
      rewrite Hpass. apply Hrest.
Qed.

(** X1 (lines 215-256): the loop is decided after one pass more than there are unset cells: a
    result reached with any number of passes is reached with that many. *)
Theorem extrapolation_returns_early_or_never (fuel : nat) (st : ext_state)
    (r : result ext_state) :
  extrapolation_phase fuel opts msh st = Some r ->
  extrapolation_phase (S (n_inactive (keepCellMaskNew st))) opts msh st = Some r.
Proof.
  unfold extrapolation_phase.
  destruct (String.eqb (var_name opts) "thickness"); [done|].
  intros Hr.
  destruct (extrapolation_loop (S (n_inactive (keepCellMaskNew st))) opts msh st)
    as [r'|] eqn:Hbound.
  - destruct (Nat.le_ge_cases fuel (S (n_inactive (keepCellMaskNew st)))) as [Hle|Hge].
    + rewrite (extrapolation_loop_more_fuel _ _ _ _ Hle Hr) in Hbound. congruence.
    + rewrite (extrapolation_loop_more_fuel _ _ _ _ Hge Hbound) in Hr. congruence.
  - rewrite (loop_silent_then_never _ st (Nat.le_refl _) Hbound fuel) in Hr. done.
Qed.

(** X2 (lines 219-256): what a finished loop leaves: the loop condition holds, the arrays keep
    their lengths, every cell set before is still set, and the cells that
    were set keep the value they had; only unset cells are written. *)
Theorem extrapolation_keeps_active_cells (fuel : nat) (st st' : ext_state) :
  extrapolation_loop fuel opts msh st = Some (Ok st') ->
  all_active msh (keepCellMask st') = true
  /\ length (field st') = length (field st)
  /\ length (keepCellMaskNew st') = length (keepCellMaskNew st)
  /\ (forall k, keepCellMaskNew st !! k = Some true ->
                keepCellMaskNew st' !! k = Some true
                /\ field st' !! k = field st !! k).
Proof.
  revert st. induction fuel as [|fuel IH]; intros st; cbn [extrapolation_loop].
  - destruct (all_active msh (keepCellMask st)) eqn:Hall; [|done].
    intros [= <-]. by repeat split.
  - destruct (all_active msh (keepCellMask st)) eqn:Hall.
    { intros [= <-]. by repeat split. }
    destruct (extrapolation_pass opts msh (keepCellMaskNew st)
                (field st, keepCellMaskNew st)) as [[fld new]|] eqn:Hpass; [|done].
    intros Hrest. apply IH in Hrest as (Hdone & Hlf & Hlm & Hkeep).
    cbn [keepCellMask keepCellMaskNew field] in *.
    unfold extrapolation_pass in Hpass.
    apply pass_progress in Hpass as (Hlen & Hlenf & Hbits & _ & Hother).
    split; [done|]. split; [congruence|]. split; [congruence|].
    intros k Hk.
    assert (Hnew : new !! k = Some true) by (apply Hbits; by left).
    destruct (Hkeep k Hnew) as [Hset Hval]. split; [done|].
    rewrite Hval. apply Hother. rewrite searchCells_inactive. congruence.
Qed.

End LoopBounds.

(** * Values written by extrapolation and smoothing *)

Section CellValues.

Variable opts : options.
Variable msh : mesh.

Lemma fold_left_choice {A} (f : A -> A -> A) (l : list A) (v : A) :
  (forall a b, f a b = a \/ f a b = b) ->
  fold_left f l v ∈ v :: l.
Proof.
  intros Hf. revert v. induction l as [|a l IH]; intros v; simpl; [by left|].
  specialize (IH (f v a)). apply elem_of_cons in IH as [->|IH].
  - destruct (Hf v a) as [->| ->]; [by left|right; by left].
  - right. by right.
Qed.

Lemma np_min_elem (l : list float) (v : float) : np_min l = Ok v -> v ∈ l.
Proof.
  destruct l as [|a l]; [done|]. intros [= <-].
  apply fold_left_choice. intros x y. unfold np_minimum.
  destruct ((x <? y)%float || is_nan x); [by left|by right].
Qed.

Lemma py_min_elem (l : list float) (v : float) : py_min l = Ok v -> v ∈ l.
Proof.
  destruct l as [|a l]; [done|]. intros [= <-].
  apply fold_left_choice. intros x y.
  destruct (y <? x)%float; [by right|by left].
Qed.

Lemma np_take_elem {A} (a : list A) (ids : list Z) (vs : list A) (v : A) :
  np_take a ids = Ok vs -> v ∈ vs -> exists j, j ∈ ids /\ py_get a j = Ok v.
Proof.
  intros Htake Hv. apply mapM_Ok in Htake.
  apply list_elem_of_lookup in Hv as [i Hi].
  destruct (Forall2_lookup_r _ _ _ _ _ Htake Hi) as (j & Hj & Hget).
  exists j. split; [|done]. by apply list_elem_of_lookup_2 in Hj.
Qed.

Lemma gather_Ok (fld : list float) (iCell : nat) (nonzero_id : list Z)
    (ds var_adj : list float) :
  gather msh fld iCell nonzero_id = Ok (ds, var_adj) ->
  np_take fld nonzero_id = Ok var_adj.
Proof.
  unfold gather.
  destruct (py_get (xCell msh) (Z.of_nat iCell)); [|done]. cbn [rbind].
  destruct (py_get (yCell msh) (Z.of_nat iCell)); [|done]. cbn [rbind].
  destruct (np_take (xCell msh) nonzero_id); [|done]. cbn [rbind].
  destruct (np_take (yCell msh) nonzero_id); [|done]. cbn [rbind].
  destruct (_ =? _)%nat; [|done].
  destruct (np_take fld nonzero_id); [|done]. cbn [rbind]. congruence.
Qed.

(** X3 (lines 224-253): under the [min] rule the value stored at a cell is the value the field
    holds at one of the ids that the mask of the pass marks as set. *)
Theorem min_rule_copies_an_active_neighbor (mask : list bool) (fld fld' : list float)
    (next next' : list bool) (iCell : nat) :
  extrapolation opts = "min" ->
  has_active_neighbor msh mask iCell ->
  extrapolate_cell opts msh mask (fld, next) iCell = Ok (fld', next') ->
  exists ids j v,
    neighborCellId msh iCell = Ok ids /\ j ∈ ids
    /\ active_at mask j = true
    /\ py_get fld j = Ok v
    /\ fld' !! iCell = Some v.
Proof.
  intros Hrule (ids & nz & Hids & Hact & Hne). unfold extrapolate_cell.
  rewrite Hids, Hrule. cbn [rbind]. rewrite Hact. cbn [rbind].
  destruct nz as [|j0 nz]; [done|]. simpl length. cbn [Nat.ltb Nat.leb].
  destruct (gather msh fld iCell (j0 :: nz)) as [[ds var_adj]|] eqn:Hg; [|done].
  cbn [rbind]. simpl String.eqb.
  destruct (np_min var_adj) as [v|] eqn:Hmin; [|done]. cbn [rbind].
  destruct (py_set fld (Z.of_nat iCell) v) as [fld1|] eqn:Hset; [|done]. cbn [rbind].
  destruct (py_set next (Z.of_nat iCell) true); [|done]. cbn [rbind].
  intros [= <- <-].
  apply py_set_nat in Hset as [Hlt ->].
  apply gather_Ok in Hg. apply np_min_elem in Hmin.
  destruct (np_take_elem _ _ _ _ Hg Hmin) as (j & Hj & Hget).
  rewrite (active_among_Ok _ _ _ Hact) in Hj.
  apply list_elem_of_filter in Hj as [Hon Hin].
  exists ids, j, v. repeat split; try done.
  by apply list_lookup_insert_eq.
Qed.

(** The loop body of the smoothing either fails or stores one value at the
    cell it visits. *)
Lemma smooth_cell_Ok (mask : list bool) (fld fld' : list float) (iCell : nat) :
  smooth_cell opts msh mask fld iCell = Ok fld' ->
  (iCell < length fld)%nat /\ exists v, fld' = <[iCell := v]> fld.
Proof.
  unfold smooth_cell.
  destruct (neighborCellId msh iCell) as [ids|]; [|done]. cbn [rbind].
  destruct (active_among mask (cell_nonzero_id ids)) as [nz|]; [|done]. cbn [rbind].
  destruct (0 <? length nz)%nat; [|done].
  destruct (gather msh fld iCell nz) as [[ds var_adj]|]; [|done]. cbn [rbind].
  destruct (if String.eqb (var_name opts) "beta" then _ else _) as [v|]; [|done].
  cbn [rbind]. intros H. apply py_set_nat in H as [Hlt ->]. eauto.
Qed.

Lemma smoothing_pass_keeps (old mask : list bool) (l : list nat) (fld fld' : list float) :
  foldM (smooth_cell opts msh mask) l fld = Ok fld' ->
  length fld' = length fld /\ forall k, k ∉ l -> fld' !! k = fld !! k.
Proof.
  revert fld. induction l as [|a l IH]; intros fld; cbn [foldM].
  - intros [= <-]. done.
  - destruct (smooth_cell opts msh mask fld a) as [fld1|] eqn:Hstep; [|done].
    cbn [rbind]. intros Hrest. apply IH in Hrest as [Hlen Hother].
    apply smooth_cell_Ok in Hstep as [Hlt [v ->]].
    rewrite length_insert in Hlen. split; [done|].
    intros k Hk. rewrite Hother by (intros Hin; apply Hk; by right).
    apply list_lookup_insert_ne. intros ->. apply Hk. by left.
Qed.

(** X4 (lines 260-299): smoothing writes only cells that the original mask left out: every
    other cell keeps its value through all the iterations, and the field
    keeps its length. *)
Theorem smoothing_keeps_active_cells (keepCellMaskOld mask : list bool)
    (fld fld' : list float) :
  smoothing opts msh keepCellMaskOld mask fld = Ok fld' ->
  length fld' = length fld
  /\ forall k, keepCellMaskOld !! k <> Some false -> fld' !! k = fld !! k.
Proof.
  unfold smoothing. generalize (Z.to_nat (smooth_iter_num opts)) as n.
  intros n. revert fld. induction n as [|n IH]; intros fld; cbn [smoothing_iters].
  - intros [= <-]. done.
  - destruct (smoothing_pass opts msh keepCellMaskOld mask fld) as [fld1|] eqn:Hpass;
      [|done].
    cbn [rbind]. intros Hrest. apply IH in Hrest as [Hlen Hkeep].
    unfold smoothing_pass in Hpass.
    apply (smoothing_pass_keeps keepCellMaskOld) in Hpass as [Hlen1 Hother].
    split; [congruence|]. intros k Hk. rewrite Hkeep by done.
    apply Hother. by rewrite searchCells_inactive.
Qed.

(** X5 (lines 260-299): with every cell set in the original mask there is nothing to smooth:
    the field comes back as it was for any number of iterations and any
    variable. *)
Theorem smoothing_without_inactive_cells (keepCellMaskOld mask : list bool)
    (fld : list float) :
  (forall k, keepCellMaskOld !! k <> Some false) ->
  smoothing opts msh keepCellMaskOld mask fld = Ok fld.
Proof.
  intros Hall. unfold smoothing.
  assert (Hnil : np_where negb keepCellMaskOld = []).
  { destruct (np_where negb keepCellMaskOld) as [|i l] eqn:Hw; [done|].
    exfalso. apply (Hall i). apply searchCells_inactive. rewrite Hw. by left. }
  induction (Z.to_nat (smooth_iter_num opts)) as [|n IH]; cbn [smoothing_iters]; [done|].
  unfold smoothing_pass. rewrite Hnil. cbn [foldM rbind]. apply IH.
Qed.

(** For a variable other than [beta] and [stiffnessFactor] the loop body of
    the smoothing never succeeds. *)
Lemma smooth_cell_other_fields (mask : list bool) (fld : list float) (iCell : nat) :
  var_name opts <> "beta" -> var_name opts <> "stiffnessFactor" ->
  exists e, smooth_cell opts msh mask fld iCell = Raise e.
Proof.
  intros Hb Hs. apply String.eqb_neq in Hb, Hs. unfold smooth_cell.
  destruct (neighborCellId msh iCell) as [ids|]; [|eauto]. cbn [rbind].
  destruct (active_among mask (cell_nonzero_id ids)) as [nz|]; [|eauto]. cbn [rbind].
  destruct (0 <? length nz)%nat; [|eauto].
  destruct (gather msh fld iCell nz) as [[ds var_adj]|]; [|eauto]. cbn [rbind].
  rewrite Hb, Hs. cbn [rbind]. eauto.
Qed.

(** X6 (lines 261-292): smoothing is refused for every other variable: with at least one
    iteration requested and at least one cell left out by the original mask,
    the phase ends in an error whatever the mesh and the field hold. *)
Theorem smoothing_other_fields_fail (keepCellMaskOld mask : list bool)
    (fld : list float) (i : nat) :
  var_name opts <> "beta" -> var_name opts <> "stiffnessFactor" ->
  0 < smooth_iter_num opts ->
  keepCellMaskOld !! i = Some false ->
  exists e, smoothing opts msh keepCellMaskOld mask fld = Raise e.
Proof.
  intros Hb Hs Hiter Hi. unfold smoothing.
  destruct (Z.to_nat (smooth_iter_num opts)) as [|n] eqn:Hn; [lia|].
  cbn [smoothing_iters]. unfold smoothing_pass.
  apply searchCells_inactive in Hi.
  destruct (np_where negb keepCellMaskOld) as [|a l]; [by apply elem_of_nil in Hi|].
  cbn [foldM].
  destruct (smooth_cell_other_fields mask fld a Hb Hs) as [e ->]. cbn [rbind]. eauto.
Qed.

(** X7 (lines 265-292): for [beta] the smoothed value of a cell is the value the field holds at
    one of its neighbour ids, one that is not the padding entry and that the
    mask marks as set. *)
Theorem beta_smoothing_copies_an_active_neighbor (mask : list bool)
    (fld fld' : list float) (iCell : nat) :
  var_name opts = "beta" ->
  smooth_cell opts msh mask fld iCell = Ok fld' ->
  exists ids j v,
    neighborCellId msh iCell = Ok ids /\ j ∈ ids /\ j <> -1
    /\ active_at mask j = true
    /\ py_get fld j = Ok v
    /\ fld' !! iCell = Some v.
Proof.
  intros Hname. unfold smooth_cell. rewrite Hname.
  destruct (neighborCellId msh iCell) as [ids|]; [|done]. cbn [rbind].
  destruct (active_among mask (cell_nonzero_id ids)) as [nz|] eqn:Hact; [|done].
  cbn [rbind].
  destruct (0 <? length nz)%nat; [|done].
  destruct (gather msh fld iCell nz) as [[ds var_adj]|] eqn:Hg; [|done].
  cbn [rbind]. simpl String.eqb.
  destruct (py_min var_adj) as [v|] eqn:Hmin; [|done]. cbn [rbind].
  intros Hset. apply py_set_nat in Hset as [Hlt ->].
  apply gather_Ok in Hg. apply py_min_elem in Hmin.
  destruct (np_take_elem _ _ _ _ Hg Hmin) as (j & Hj & Hget).
  rewrite (active_among_Ok _ _ _ Hact) in Hj.
  apply list_elem_of_filter in Hj as [Hon Hin].
  exists ids, j, v. repeat split; try done.
  - unfold cell_nonzero_id in Hin. apply list_elem_of_omap in Hin as (p & _ & Hp).
    by apply list_elem_of_lookup_2 in Hp.
  - intros ->. by apply (cell_nonzero_id_drops_padding ids).
  - by apply list_lookup_insert_eq.
Qed.

End CellValues.

(** * The id map of the [coord] method *)

Section IdMap.

Variable pf : platform.

Lemma mapM_length {A B} (f : A -> result B) (l : list A) (bs : list B) :
  mapM f l = Ok bs -> length bs = length l.
Proof. intros H. apply mapM_Ok in H. symmetry. by apply (Forall2_length _ _ _ H). Qed.

Lemma py_get_nat_inv {A} (a : list A) (i : nat) (v : A) :
  py_get a (Z.of_nat i) = Ok v -> a !! i = Some v.
Proof.
  unfold py_get, py_index.
  destruct (Z.ltb_spec (Z.of_nat i) (Z.of_nat (length a))) as [Hlt|Hge].
  - replace (0 <=? Z.of_nat i) with true by (symmetry; apply Z.leb_le; lia).
    simpl. rewrite Nat2Z.id. destruct (a !! i); congruence.
  - rewrite andb_false_r.
    replace (Z.of_nat i <? 0) with false by (symmetry; apply Z.ltb_ge; lia).
    by rewrite andb_false_r.
Qed.

(** X8 (lines 118-134): the [coord] method saves the sample count followed by the ids it found
    and leaves the variables alone; the [id] method, given that file, returns
    the same ids. *)
Theorem coord_map_read_back_by_id (opts : options) (msh : mesh) (ex : samples)
    (w w' : world) (ids : list Z) :
  conversion_method opts = "coord" ->
  x_exo_layer ex <> [] ->
  correspondence pf opts msh ex w = Done ids w' ->
  length ids = length (x_exo_layer ex)
  /\ variables w' = variables w
  /\ id_map_txt w' = Some (Z.of_nat (length (x_exo_layer ex)) :: ids)
  /\ forall pf' opts' msh' ex' w'',
       conversion_method opts' = "id" ->
       id_map_txt w' = Some (usefulCellID ex') ->
       correspondence pf' opts' msh' ex' w'' = Done ids w''.
Proof.
  intros Hm Hne. unfold correspondence. rewrite Hm. simpl.
  unfold bindM, lift, savetxt, ret.
  destruct (coord_ids pf msh ex) as [found|] eqn:Hfound; [|done].
  intros [= <- <-]. simpl.
  pose proof (mapM_length _ _ _ Hfound) as Hlen. rewrite length_seq in Hlen.
  repeat split; try done.
  intros pf' opts' msh' ex' w'' Hm' [= Hfile].
  unfold correspondence. rewrite Hm'. simpl. unfold lift.
  rewrite <- Hfile, id_ids_skips_first; [done|].
  intros ->. destruct (x_exo_layer ex); done.
Qed.

(** X9 (lines 120-126): when the platform hands back a member of the set, every id found by the
    [coord] method is the 1-based number of a cell whose x and y both pass
    the tolerance test against the sample at the same position. *)
Theorem coord_ids_match_their_samples (msh : mesh) (ex : samples)
    (ids : list Z) (i : nat) (c : Z) :
  (forall j js, set_first pf j js ∈ j :: js) ->
  coord_ids pf msh ex = Ok ids ->
  ids !! i = Some c ->
  exists cell xe ye xc yc,
    c = wrap32 (Z.of_nat cell + 1)
    /\ x_exo_layer ex !! i = Some xe /\ y_exo_layer ex !! i = Some ye
    /\ xCell msh !! cell = Some xc /\ yCell msh !! cell = Some yc
    /\ close_to xe xc = true /\ close_to ye yc = true.
Proof.
  intros Hpick Hids Hi. unfold coord_ids in Hids. apply mapM_Ok in Hids.
  destruct (Forall2_lookup_r _ _ _ _ _ Hids Hi) as (a & Ha & Hf).
  apply lookup_seq in Ha as [-> _]. simpl in Hf.
  destruct (py_get (x_exo_layer ex) (Z.of_nat i)) as [xe|] eqn:Hx; [|done].
  destruct (py_get (y_exo_layer ex) (Z.of_nat i)) as [ye|] eqn:Hy; [|done].
  cbn [rbind] in Hf.
  destruct (coord_index pf msh xe ye) as [cell|] eqn:Hc; [|done].
  cbn [rbind] in Hf. injection Hf as <-.
  unfold coord_index in Hc.
  destruct (index_intersect _ _) as [|j js] eqn:Hint; [done|].
  injection Hc as <-.
  assert (Hin : set_first pf j js ∈ index_intersect
                  (np_where (close_to xe) (xCell msh)) (np_where (close_to ye) (yCell msh))).
  { rewrite Hint. apply Hpick. }
  apply list_elem_of_filter in Hin as [Hiny Hinx].
  apply elem_of_np_where in Hinx as (xc & Hxc & Hcx).
  apply elem_of_np_where in Hiny as (yc & Hyc & Hcy).
  exists (set_first pf j js), xe, ye, xc, yc.
  repeat split; try done; by apply py_get_nat_inv.
Qed.

End IdMap.

(** * The mask on any dataset *)

Section MaskAnyDataset.

Variable opts : options.
Variable msh : mesh.

(** X10 (lines 184-202): building the mask never changes the dataset, whether it succeeds or
    ends the run; without a thickness variable it ends with KeyError. *)
Theorem build_mask_leaves_dataset (w : world) :
  (exists mask, build_mask opts msh w = Done mask w)
  \/ (exists e, build_mask opts msh w = Halt e w
                /\ (variables w !! "thickness" = None -> e = KeyError "thickness")).
Proof.
  unfold build_mask, bindM, read_all, bindM, get_var, in_keys, ret, lift.
  destruct (variables w !! "thickness") as [[thickness|levels]|] eqn:Ht;
    [| right; eexists; by split | right; eexists; by split].
  destruct (bool_decide (is_Some (variables w !! "bedTopography"))).
  - destruct (variables w !! "bedTopography") as [[bedrock|levels]|];
      [| right; eexists; by split | right; eexists; by split].
    destruct (keepCellMask_init _ _ _ _); [left|right]; eexists; [done|by split].
  - destruct (keepCellMask_init _ _ _ _); [left|right]; eexists; [done|by split].
Qed.

(** X11 (lines 188-197): without a bed topography in the dataset the [grd] scheme takes the bed
    as zero everywhere. *)
Theorem grounded_mask_without_bed (w : world) (thickness : list float) :
  mask_scheme opts = "grd" ->
  variables w !! "thickness" = Some (Data2 thickness) ->
  variables w !! "bedTopography" = None ->
  length thickness = nCells msh ->
  build_mask opts msh w
  = Done (map (fun t => (0 <? t * 910.0 / 1028.0 + 0)%float) thickness) w.
Proof.
  intros Hs Ht Hb Hlen.
  unfold build_mask, bindM, read_all, bindM, get_var, in_keys, ret, lift.
  rewrite Ht, Hb, Hs.
  rewrite bool_decide_eq_false_2 by (intros [? ?]; done).
  rewrite keepCellMask_init_grd by (by rewrite ?length_replicate).
  do 2 f_equal. clear. induction thickness as [|t l IH]; [done|].
  simpl. by rewrite IH.
Qed.

(** X12 (lines 184-200): with the [all] scheme, on a dataset whose bed
    topography is absent or of rank 2, a thickness array that is not as
    long as [nCells] cannot index the mask: the run ends with IndexError and
    the dataset is as it was. *)
Theorem mask_length_mismatch (w : world) (thickness : list float) :
  mask_scheme opts = "all" ->
  variables w !! "thickness" = Some (Data2 thickness) ->
  (forall levels, variables w !! "bedTopography" <> Some (Data3 levels)) ->
  length thickness <> nCells msh ->
  build_mask opts msh w = Halt IndexError w.
Proof.
  intros Hs Ht Hb Hlen.
  assert (Hinit : forall bedrock,
             keepCellMask_init "all" (nCells msh) thickness bedrock = Raise IndexError).
  { intros bedrock. unfold keepCellMask_init. simpl. unfold np_set_where.
    rewrite length_map, length_replicate.
    by apply Nat.eqb_neq in Hlen as ->. }
  unfold build_mask, bindM, read_all, bindM, get_var, in_keys, ret, lift.
  rewrite Ht, Hs.
  destruct (variables w !! "bedTopography") as [[bedrock|levels]|] eqn:Hbed.
  - rewrite bool_decide_eq_true_2 by eauto. rewrite ?Hbed. cbv beta iota.
    by rewrite Hinit.
  - by destruct (Hb levels).
  - rewrite bool_decide_eq_false_2 by (intros [? ?]; done). cbv beta iota.
    by rewrite Hinit.
Qed.

End MaskAnyDataset.

(** * Where the samples land *)

Section Writes.

Variable pf : platform.

Lemma put_all_length {A} (js : list nat) (vs : list A) (a : list A) :
  length (fold_left (fun acc jv => <[jv.1 := jv.2]> acc) (zip js vs) a) = length a.
Proof.
  revert vs a. induction js as [|j js IH]; intros [|v vs] a; simpl; try done.
  by rewrite IH, length_insert.
Qed.

Lemma put_all_other {A} (js : list nat) (vs : list A) (a : list A) (k : nat) :
  k ∉ js ->
  fold_left (fun acc jv => <[jv.1 := jv.2]> acc) (zip js vs) a !! k = a !! k.
Proof.
  revert vs a. induction js as [|j js IH]; intros [|v vs] a Hk; simpl; try done.
  rewrite IH by (intros Hin; apply Hk; by right).
  apply list_lookup_insert_ne. intros ->. apply Hk. by left.
Qed.

Lemma put_all_at {A} (js : list nat) (vs : list A) (a : list A) (i k : nat) (v : A) :
  NoDup js -> (k < length a)%nat ->
  js !! i = Some k -> vs !! i = Some v ->
  fold_left (fun acc jv => <[jv.1 := jv.2]> acc) (zip js vs) a !! k = Some v.
Proof.
  revert vs a i. induction js as [|j js IH]; intros [|v0 vs] a i Hnd Hlt Hj Hv;
    try done.
  apply NoDup_cons in Hnd as [Hnotin Hnd]. simpl.
  destruct i as [|i]; simpl in *.
  - injection Hj as ->. injection Hv as ->.
    rewrite put_all_other by done. by apply list_lookup_insert_eq.
  - apply (IH vs _ i); try done. by rewrite length_insert.
Qed.

(** [a[ids] = vals] with as many values as indices: the array keeps its
    length, a cell no index refers to keeps its value, and when no two
    indices refer to the same cell each value is at the cell of its index. *)
Lemma np_put_spec {A} (a a' : list A) (ids : list Z) (vals : list A) :
  np_put a ids vals = Ok a' ->
  length vals = length ids ->
  length a' = length a
  /\ (forall k, (forall j, j ∈ ids -> py_index (length a) j <> Some k) -> a' !! k = a !! k)
  /\ ((forall i i' j j' k, ids !! i = Some j -> ids !! i' = Some j' ->
         py_index (length a) j = Some k -> py_index (length a) j' = Some k -> i = i') ->
      forall i j k v, ids !! i = Some j -> py_index (length a) j = Some k ->
                      vals !! i = Some v -> a' !! k = Some v).
Proof.
  unfold np_put. intros H Hlen.
  destruct (mapM _ ids) as [js|] eqn:Hjs; [|done]. cbn [rbind] in H.
  rewrite Hlen, Nat.eqb_refl in H. cbn [rbind] in H. injection H as <-.
  apply mapM_Ok in Hjs.
  assert (Hres : forall i j, ids !! i = Some j ->
                   exists k, js !! i = Some k /\ py_index (length a) j = Some k).
  { intros i j Hi. destruct (Forall2_lookup_l _ _ _ _ _ Hjs Hi) as (k & Hk & Hf).
    exists k. split; [done|]. destruct (py_index (length a) j); congruence. }
  assert (Hback : forall i k, js !! i = Some k ->
                    exists j, ids !! i = Some j /\ py_index (length a) j = Some k).
  { intros i k Hk. destruct (Forall2_lookup_r _ _ _ _ _ Hjs Hk) as (j & Hj & Hf).
    exists j. split; [done|]. destruct (py_index (length a) j); congruence. }
  split; [apply put_all_length|]. split.
  - intros k Hk. apply put_all_other. intros Hin.
    apply list_elem_of_lookup in Hin as [i Hi].
    destruct (Hback i k Hi) as (j & Hj & Hjk).
    apply (Hk j); [by apply list_elem_of_lookup_2 in Hj|done].
  - intros Hinj i j k v Hi Hjk Hv.
    destruct (Hres i j Hi) as (k' & Hk' & Hjk').
    assert (k' = k) as -> by congruence.
    apply (put_all_at js vals a i k v); try done.
    + apply NoDup_alt. intros i1 i2 x H1 H2.
      destruct (Hback i1 x H1) as (j1 & Hj1 & Hx1).
      destruct (Hback i2 x H2) as (j2 & Hj2 & Hx2).
      by apply (Hinj i1 i2 j1 j2 x).
    + unfold py_index in Hjk.
      destruct ((0 <=? j) && (j <? Z.of_nat (length a))) eqn:E1.
      * injection Hjk as <-. apply andb_true_iff in E1 as [? E1].
        apply Z.ltb_lt in E1. lia.
      * destruct ((- Z.of_nat (length a) <=? j) && (j <? 0)) eqn:E2; [|done].
        injection Hjk as <-. apply andb_true_iff in E2 as [E2 E3].
        apply Z.leb_le in E2. apply Z.ltb_lt in E3. lia.
Qed.

Lemma id_method_returns_tail (opts : options) (msh : mesh) (ex : samples)
    (w : world) (declared : Z) (ids : list Z) :
  conversion_method opts = "id" ->
  usefulCellID ex = declared :: ids ->
  ids <> [] ->
  correspondence pf opts msh ex w = Done ids w.
Proof.
  intros Hm Hfile Hne. unfold correspondence. rewrite Hm. simpl.
  unfold lift. rewrite Hfile. by rewrite id_ids_skips_first.
Qed.

(** For a rank-2 variable other than [beta] and [thickness], the [id]
    method followed by the write is the single assignment of line 179. *)
Lemma convert_flat_is_np_put (opts : options) (msh : mesh) (ex : samples) (w : world)
    (exo_var_name : string) (declared : Z) (ids : list Z) (vals : list float) :
  dict_get mpas_exodus_var_dic (var_name opts) = Ok exo_var_name ->
  var_name opts <> "beta" -> var_name opts <> "thickness" ->
  conversion_method opts = "id" ->
  usefulCellID ex = declared :: ids -> ids <> [] ->
  variables w !! var_name opts = Some (Data2 vals) ->
  convert pf opts msh ex w
  = match np_put vals (map (fun c => wrap32 (c - 1)) ids) (data_exo_layer ex) with
    | Ok vals' => Done tt (set_variables (<[var_name opts := Data2 vals']> (variables w)) w)
    | Raise e => Halt e w
    end.
Proof.
  intros Hd Hb Ht Hm Hfile Hne Hvar.
  unfold convert, bindM, lift. rewrite Hd.
  rewrite (id_method_returns_tail opts msh ex w declared ids Hm Hfile Hne).
  unfold get_var at 1. rewrite Hvar. simpl.
  unfold bindM, ret, write_level.
  apply String.eqb_neq in Hb, Ht. rewrite Hb, Ht. simpl.
  unfold bindM. rewrite name_in_keys_eq_False_never.
  unfold assign2, bindM, get_var, lift. rewrite Hvar.
  destruct (np_put vals _ _); done.
Qed.

End Writes.

Section WriteResults.

Variable pf : platform.

Lemma lookup_cells (ids : list Z) (i : nat) (j' : Z) :
  map (fun c => wrap32 (c - 1)) ids !! i = Some j' ->
  exists j, ids !! i = Some j /\ j' = wrap32 (j - 1).
Proof.
  rewrite list_lookup_fmap. destruct (ids !! i) as [j|]; [|done].
  intros [= <-]. eauto.
Qed.

(** X13 (lines 130-179): a successful conversion of a rank-2 variable other than [beta] and
    [thickness] changes that variable only; in it, a cell that no stored id
    refers to keeps its value, and when no two ids refer to the same cell
    each sample is at the cell of its id. *)
Theorem flat_write_lands_on_mapped_cells (opts : options) (msh : mesh) (ex : samples)
    (w w' : world) (exo_var_name : string) (declared : Z) (ids : list Z)
    (vals : list float) :
  dict_get mpas_exodus_var_dic (var_name opts) = Ok exo_var_name ->
  var_name opts <> "beta" -> var_name opts <> "thickness" ->
  conversion_method opts = "id" ->
  usefulCellID ex = declared :: ids -> ids <> [] ->
  variables w !! var_name opts = Some (Data2 vals) ->
  length (data_exo_layer ex) = length ids ->
  convert pf opts msh ex w = Done tt w' ->
  exists vals',
    variables w' = <[var_name opts := Data2 vals']> (variables w)
    /\ id_map_txt w' = id_map_txt w
    /\ length vals' = length vals
    /\ (forall k, (forall j, j ∈ ids -> cell_of (length vals) j <> Some k) ->
                  vals' !! k = vals !! k)
    /\ ((forall i i' j j' k, ids !! i = Some j -> ids !! i' = Some j' ->
           cell_of (length vals) j = Some k -> cell_of (length vals) j' = Some k ->
           i = i') ->
        forall i j k v, ids !! i = Some j -> cell_of (length vals) j = Some k ->
                        data_exo_layer ex !! i = Some v -> vals' !! k = Some v).
Proof.
  intros Hd Hb Ht Hm Hfile Hne Hvar Hlen.
  rewrite (convert_flat_is_np_put pf opts msh ex w exo_var_name declared ids vals)
    by done.
  destruct (np_put vals _ _) as [vals'|] eqn:Hput; [|done].
  intros [= <-]. exists vals'.
  apply np_put_spec in Hput as (Hl & Hother & Hat); [|by rewrite length_map].
  repeat split; try done.
  - intros k Hk. apply Hother. intros j' Hj'.
    apply list_elem_of_lookup in Hj' as [i Hi].
    apply lookup_cells in Hi as (j & Hj & ->).
    apply (Hk j). by apply list_elem_of_lookup_2 in Hj.
  - intros Hinj i j k v Hi Hc Hv.
    apply (Hat) with (i := i) (j := wrap32 (j - 1)); try done.
    + intros i1 i2 j1 j2 k0 H1 H2 Hk1 Hk2.
      apply lookup_cells in H1 as (c1 & Hc1 & ->).
      apply lookup_cells in H2 as (c2 & Hc2 & ->).
      by apply (Hinj i1 i2 c1 c2 k0).
    + by rewrite list_lookup_fmap, Hi.
Qed.

(** X14 (lines 130-179): a stored id that refers to no cell ends the conversion with IndexError
    before anything is written. *)
Theorem flat_write_rejects_bad_id (opts : options) (msh : mesh) (ex : samples)
    (w : world) (exo_var_name : string) (declared : Z) (ids : list Z)
    (vals : list float) (j : Z) :
  dict_get mpas_exodus_var_dic (var_name opts) = Ok exo_var_name ->
  var_name opts <> "beta" -> var_name opts <> "thickness" ->
  conversion_method opts = "id" ->
  usefulCellID ex = declared :: ids ->
  variables w !! var_name opts = Some (Data2 vals) ->
  length (data_exo_layer ex) = length ids ->
  j ∈ ids -> cell_of (length vals) j = None ->
  convert pf opts msh ex w = Halt IndexError w.
Proof.
  intros Hd Hb Ht Hm Hfile Hvar _ Hj Hbad.
  assert (Hne : ids <> []) by (intros ->; by apply elem_of_nil in Hj).
  rewrite (convert_flat_is_np_put pf opts msh ex w exo_var_name declared ids vals)
    by done.
  unfold np_put.
  rewrite (mapM_raise _ IndexError _ (wrap32 (j - 1))); [done| | |].
  - intros a' _ e'. destruct (py_index (length vals) a'); congruence.
  - apply list_elem_of_In, in_map_iff. exists j. split; [done|].
    by apply list_elem_of_In.
  - unfold cell_of in Hbad. by rewrite Hbad.
Qed.

(** Which cell a stored id refers to among [n] cells: ids 1 to [n] are the
    cells 0 to [n - 1], id 0 is the last cell, and an id above [n] is no
    cell. *)
Lemma stored_id_cells (n : nat) (j : Z) :
  (0 < n)%nat -> Z.of_nat n < 2^31 ->
  (1 <= j <= Z.of_nat n -> cell_of n j = Some (Z.to_nat (j - 1)))
  /\ (j = 0 -> cell_of n j = Some (n - 1)%nat)
  /\ (Z.of_nat n < j < 2^31 -> cell_of n j = None).
Proof.
  intros Hn Hmax. unfold cell_of.
  assert (Hwrap : - 2^31 <= j - 1 < 2^31 -> wrap32 (j - 1) = j - 1).
  { intros Hr. unfold wrap32.
    rewrite Z.mod_small by (change (2^32) with (2^31 + 2^31); lia). lia. }
  split; [|split].
  - intros Hj. rewrite Hwrap by lia. unfold py_index.
    replace (0 <=? j - 1) with true by (symmetry; apply Z.leb_le; lia).
    replace (j - 1 <? Z.of_nat n) with true by (symmetry; apply Z.ltb_lt; lia).
    done.
  - intros ->. by apply py_index_last.
  - intros Hj. rewrite Hwrap by lia. unfold py_index.
    replace (j - 1 <? Z.of_nat n) with false by (symmetry; apply Z.ltb_ge; lia).
    replace (j - 1 <? 0) with false by (symmetry; apply Z.ltb_ge; lia).
    by rewrite !andb_false_r.
Qed.

End WriteResults.

(** * Layered variables and early exits *)

Section Layers.

Variable pf : platform.
Variable opts : options.

Hypothesis not_beta : var_name opts <> "beta".
Hypothesis not_thickness : var_name opts <> "thickness".

(** Line 175 on one level of a layered variable. *)
Lemma write_level_layered (ids : list Z) (data : list float) (nVert_max k : nat)
    (levels : list (list float)) (lev : list float) (w : world) :
  (1 < nVert_max)%nat ->
  variables w !! var_name opts = Some (Data3 levels) ->
  levels !! k = Some lev ->
  write_level pf opts ids data nVert_max k w
  = match np_put lev (map (fun c => wrap32 (c - 1)) ids) data with
    | Ok lev' =>
        Done tt (set_variables (<[var_name opts := Data3 (<[k := lev']> levels)]>
                                  (variables w)) w)
    | Raise e => Halt e w
    end.
Proof.
  intros Hmax Hvar Hk. unfold write_level.
  apply String.eqb_neq in not_beta as ->. apply String.eqb_neq in not_thickness as ->.
  apply Nat.ltb_lt in Hmax as ->.
  unfold assign3, bindM, get_var, lift. rewrite Hvar, Hk.
  by destruct (np_put lev _ data).
Qed.

(** The loop over the levels, from level [length done] on: the levels
    already written are [done], the ones still to write [rest]. *)
Lemma write_levels_from (ids : list Z) (data : list float) (nVert_max : nat)
    (rest done : list (list float)) (w w' : world) :
  (1 < nVert_max)%nat ->
  variables w !! var_name opts = Some (Data3 (app done rest)) ->
  forM_ (seq (length done) (length rest)) (write_level pf opts ids data nVert_max) w
  = Done tt w' ->
  exists rest',
    Forall2 (fun lev lev' =>
               np_put lev (map (fun c => wrap32 (c - 1)) ids) data = Ok lev') rest rest'
    /\ variables w' = <[var_name opts := Data3 (app done rest')]> (variables w)
    /\ id_map_txt w' = id_map_txt w.
Proof.
  intros Hmax. revert done w. induction rest as [|lev rest IH]; intros done w Hvar.
  - simpl. unfold ret. intros [= <-]. exists []. split; [constructor|].
    split; [|done]. rewrite app_nil_r in *. symmetry. by apply insert_id.
  - cbn [length seq forM_]. unfold bindM at 1.
    rewrite (write_level_layered ids data nVert_max (length done)
               (app done (lev :: rest)) lev w Hmax Hvar)
      by (by apply list_lookup_middle).
    destruct (np_put lev _ data) as [lev'|] eqn:Hput; [|done].
    intros Hrest.
    specialize (IH (app done [lev'])).
    rewrite length_app in IH. simpl in IH. rewrite Nat.add_1_r in IH.
    apply IH in Hrest as (rest' & Hall & Hvars & Hmap).
    + exists (lev' :: rest'). split; [by constructor|]. split; [|done].
      rewrite Hvars. simpl. rewrite insert_insert_eq.
      by rewrite <- app_assoc.
    + simpl. rewrite lookup_insert_eq. do 2 f_equal.
      rewrite insert_app_r_alt, Nat.sub_diag by done. simpl.
      by rewrite <- app_assoc.
Qed.

(** X16 (lines 139-175): for a variable with more than one level, a successful conversion
    assigns the same sample array, the first Exodus layer, to every level,
    each level at the cells of the stored ids; no other variable changes. *)
Theorem every_level_gets_the_first_layer (msh : mesh) (ex : samples) (w w' : world)
    (exo_var_name : string) (declared : Z) (ids : list Z) (levels : list (list float)) :
  dict_get mpas_exodus_var_dic (var_name opts) = Ok exo_var_name ->
  conversion_method opts = "id" ->
  usefulCellID ex = declared :: ids -> ids <> [] ->
  variables w !! var_name opts = Some (Data3 levels) ->
  (1 < length levels)%nat ->
  convert pf opts msh ex w = Done tt w' ->
  exists levels',
    Forall2 (fun lev lev' =>
               np_put lev (map (fun c => wrap32 (c - 1)) ids) (data_exo_layer ex) = Ok lev')
            levels levels'
    /\ variables w' = <[var_name opts := Data3 levels']> (variables w)
    /\ id_map_txt w' = id_map_txt w.
Proof.
  intros Hd Hm Hfile Hne Hvar Hlev.
  unfold convert, bindM, lift. rewrite Hd.
  rewrite (id_method_returns_tail pf opts msh ex w declared ids Hm Hfile Hne).
  unfold get_var at 1. rewrite Hvar. simpl nVert_max_of.
  intros Hloop.
  by apply (write_levels_from ids (data_exo_layer ex) (length levels) levels [] w w').
Qed.

End Layers.

Section EarlyExits.

Variable pf : platform.

Lemma dict_get_raise (d : list (string * string)) (k : string) (e : py_error) :
  dict_get d k = Raise e -> e = KeyError k.
Proof.
  induction d as [|[k' v] d IH]; simpl; [congruence|].
  destruct (String.eqb k k'); [done|apply IH].
Qed.

(** X17 (lines 65-139): the conversion gives up before it touches the dataset or saves an id
    map: with KeyError on a variable name that is not in the dictionary,
    whatever the method; with the method message on a method other than
    [coord] and [id]; and with KeyError when the dataset lacks the variable,
    after the [id] map has been read. *)
Theorem convert_early_exits (opts : options) (msh : mesh) (ex : samples) (w : world) :
  (forall e, dict_get mpas_exodus_var_dic (var_name opts) = Raise e ->
             convert pf opts msh ex w = Halt (KeyError (var_name opts)) w)
  /\ (forall exo_var_name,
        dict_get mpas_exodus_var_dic (var_name opts) = Ok exo_var_name ->
        conversion_method opts <> "coord" -> conversion_method opts <> "id" ->
        convert pf opts msh ex w
        = Halt (SystemExit "Unsupported conversion method chosen! Set option m as 'id' or 'coord'!") w)
  /\ (forall exo_var_name ids,
        dict_get mpas_exodus_var_dic (var_name opts) = Ok exo_var_name ->
        conversion_method opts = "id" ->
        id_ids (usefulCellID ex) = Ok ids ->
        variables w !! var_name opts = None ->
        convert pf opts msh ex w = Halt (KeyError (var_name opts)) w).
Proof.
  split; [|split].
  - intros e He. unfold convert, bindM, lift. rewrite He.
    by rewrite (dict_get_raise _ _ _ He).
  - intros exo_var_name Hd Hc Hi. unfold convert, bindM, lift. rewrite Hd.
    unfold correspondence. apply String.eqb_neq in Hc, Hi. by rewrite Hc, Hi.
  - intros exo_var_name ids Hd Hm Hids Habs. unfold convert, bindM, lift. rewrite Hd.
    unfold correspondence. rewrite Hm. simpl. unfold lift. rewrite Hids.
    unfold get_var. by rewrite Habs.
Qed.

End EarlyExits.

(** * The first layer of the Exodus data *)

Section Loader.

Lemma lookup_every_from {A} (k c : nat) (l : list A) (i : nat) :
  (1 <= k)%nat -> every_from k c l !! i = l !! (c + i * k)%nat.
Proof.
  intros Hk. revert c i. induction l as [|a l IH]; intros c i; simpl.
  - by destruct c.
  - destruct c as [|c].
    + destruct i as [|i]; [done|]. simpl. rewrite IH.
      replace (k + i * k)%nat with (S (k - 1 + i * k)) by lia. done.
    + simpl. apply IH.
Qed.

Lemma length_data_exo_of (name : string) (values : list float) :
  length (data_exo_of name values) = length values.
Proof.
  unfold data_exo_of.
  repeat (destruct (String.eqb _ _); [by rewrite length_map|]). done.
Qed.

(** X18 (lines 73-100): column-wise ordering with a positive stride: the loader succeeds, and
    sample [i] of each first-layer array is entry [i * stride] of the
    converted data and of the coordinates in metres. *)
Theorem column_wise_takes_every_stride (exo_var_name : string) (exo : exodus_data) :
  (ordering exo =? 1)%float = true ->
  0 < stride exo ->
  exists x_layer y_layer data_layer,
    load_layer exo_var_name exo = Loaded x_layer y_layer data_layer (stride exo)
    /\ (forall i, data_layer !! i
                  = data_exo_of exo_var_name (node_values exo) !! (i * Z.to_nat (stride exo))%nat)
    /\ (forall i, x_layer !! i
                  = (fun c => c * 1000)%float <$> coord_x exo !! (i * Z.to_nat (stride exo))%nat)
    /\ (forall i, y_layer !! i
                  = (fun c => c * 1000)%float <$> coord_y exo !! (i * Z.to_nat (stride exo))%nat).
Proof.
  intros Hord Hpos. unfold load_layer. rewrite Hord. unfold py_slice_step.
  replace (stride exo =? 0) with false by (symmetry; apply Z.eqb_neq; lia).
  replace (0 <? stride exo) with true by (symmetry; apply Z.ltb_lt; lia).
  do 3 eexists. split; [reflexivity|].
  repeat split; intros i; rewrite lookup_every_from by lia; simpl;
    by rewrite ?list_lookup_fmap.
Qed.

(** X19 (lines 101-107): layer-wise ordering with a positive stride [node_num]: the loader takes
    the first [node_num + 1] entries, one more than [node_num], or all of
    them when there are fewer; [layer_num] is the floor of the quotient. *)
Theorem layer_wise_takes_one_more_than_stride (exo_var_name : string) (exo : exodus_data) :
  (ordering exo =? 1)%float = false ->
  (ordering exo =? 0)%float = true ->
  0 < stride exo ->
  exists x_layer y_layer data_layer,
    load_layer exo_var_name exo
    = Loaded x_layer y_layer data_layer (Z.of_nat (length (node_values exo)) / stride exo)
    /\ data_layer = take (S (Z.to_nat (stride exo))) (data_exo_of exo_var_name (node_values exo))
    /\ length data_layer = Nat.min (S (Z.to_nat (stride exo))) (length (node_values exo))
    /\ length x_layer = Nat.min (S (Z.to_nat (stride exo))) (length (coord_x exo))
    /\ length y_layer = Nat.min (S (Z.to_nat (stride exo))) (length (coord_y exo)).
Proof.
  intros H1 H0 Hpos. unfold load_layer. rewrite H1, H0.
  replace (stride exo =? 0) with false by (symmetry; apply Z.eqb_neq; lia).
  unfold py_slice_to.
  replace (0 <=? stride exo + 1) with true by (symmetry; apply Z.leb_le; lia).
  replace (Z.to_nat (stride exo + 1)) with (S (Z.to_nat (stride exo))) by lia.
  rewrite length_data_exo_of.
  do 3 eexists. split; [reflexivity|].
  split; [done|].
  by rewrite !length_take, length_data_exo_of, !length_map.
Qed.

(** The three ways the loader gives up: a zero stride is a ValueError in
    column-wise ordering and a ZeroDivisionError in layer-wise ordering, and
    an ordering flag other than 0 and 1 ends the run with its message. *)
Lemma loader_failures (exo_var_name : string) (exo : exodus_data) :
  ((ordering exo =? 1)%float = true -> stride exo = 0 ->
   load_layer exo_var_name exo = LoadRaise ValueError)
  /\ ((ordering exo =? 1)%float = false -> (ordering exo =? 0)%float = true ->
      stride exo = 0 ->
      load_layer exo_var_name exo = LoadZeroDivision)
  /\ ((ordering exo =? 1)%float = false -> (ordering exo =? 0)%float = false ->
      load_layer exo_var_name exo
      = LoadRaise (SystemExit "Invalid ordering in Exodus file.  Ordering must be 0 or 1.")).
Proof.
  unfold load_layer. split; [|split].
  - intros -> ->. done.
  - intros -> -> ->. done.
  - intros -> ->. done.
Qed.

End Loader.

(** * The theorems above on the example inputs *)

Lemma extrapolation_returns_early_or_never_witness :
  let st := ext_start [true; false; false; false; true] [10; 0; 0; 0; 20]%float in
  extrapolation_phase (S (n_inactive (keepCellMaskNew st)))
    (run_options "id" "all" "beta" "min" 3) line5 st
  = Some (Ok (ext_start [true; true; true; true; true] [10; 10; 10; 20; 20]%float)).
Proof.
  apply (extrapolation_returns_early_or_never (run_options "id" "all" "beta" "min" 3)
           line5 10).
  vm_compute. reflexivity.
Defined.

Lemma extrapolation_keeps_active_cells_witness :
  let st := ext_start [true; false; false; false; true] [10; 0; 0; 0; 20]%float in
  let st' := ext_start [true; true; true; true; true] [10; 10; 10; 20; 20]%float in
  all_active line5 (keepCellMask st') = true
  /\ length (field st') = length (field st)
  /\ length (keepCellMaskNew st') = length (keepCellMaskNew st)
  /\ (forall k, keepCellMaskNew st !! k = Some true ->
                keepCellMaskNew st' !! k = Some true
                /\ field st' !! k = field st !! k).
Proof.
  apply (extrapolation_keeps_active_cells (run_options "id" "all" "beta" "min" 3)
           line5 3).
  vm_compute. reflexivity.
Defined.

Lemma min_rule_copies_an_active_neighbor_witness :
  let mask := [true; false; false; false; true] in
  let fld := [10; 0; 0; 0; 20]%float in
  exists ids j v,
    neighborCellId line5 1 = Ok ids /\ j ∈ ids
    /\ active_at mask j = true
    /\ py_get fld j = Ok v
    /\ [10; 10; 0; 0; 20]%float !! 1%nat = Some v.
Proof.
  apply (min_rule_copies_an_active_neighbor (run_options "id" "all" "beta" "min" 3)
           line5 [true; false; false; false; true] [10; 0; 0; 0; 20]%float
           [10; 10; 0; 0; 20]%float [true; false; false; false; true]
           [true; true; false; false; true] 1).
  - reflexivity.
  - exists [0; 2], [0]. split; [|split]; [vm_compute; reflexivity.. | discriminate].
  - vm_compute. reflexivity.
Defined.

Lemma smoothing_keeps_active_cells_witness :
  let fld := [0; 5; 2; 3; 1]%float in
  let fld' := [5; 5; 2; 3; 1]%float in
  length fld' = length fld
  /\ forall k, [false; true; true; true; true] !! k <> Some false -> fld' !! k = fld !! k.
Proof.
  apply (smoothing_keeps_active_cells (run_options "id" "all" "beta" "min" 2) line5
           [false; true; true; true; true] [true; true; true; true; true]).
  vm_compute. reflexivity.
Defined.

Lemma smoothing_without_inactive_cells_witness :
  smoothing (run_options "id" "all" "temperature" "min" 3) line5
    [true; true; true; true; true] [true; true; true; true; true] [0; 5; 2; 3; 1]%float
  = Ok [0; 5; 2; 3; 1]%float.
Proof.
  apply smoothing_without_inactive_cells.
  intros [|[|[|[|[|k]]]]]; discriminate.
Defined.

Lemma smoothing_other_fields_fail_witness :
  exists e,
    smoothing (run_options "id" "all" "thickness" "min" 3) line5
      [true; false; false; false; true] [true; false; false; false; true]
      [10; 0; 0; 0; 20]%float
    = Raise e.
Proof.
  apply (smoothing_other_fields_fail _ _ _ _ _ 1%nat);
    [discriminate | discriminate | reflexivity | reflexivity].
Defined.

Lemma beta_smoothing_copies_an_active_neighbor_witness :
  let mask := [true; true; true; true; true] in
  let fld := [0; 5; 2; 3; 1]%float in
  exists ids j v,
    neighborCellId line5_padded 0 = Ok ids /\ j ∈ ids /\ j <> -1
    /\ active_at mask j = true
    /\ py_get fld j = Ok v
    /\ [5; 5; 2; 3; 1]%float !! 0%nat = Some v.
Proof.
  apply (beta_smoothing_copies_an_active_neighbor (run_options "id" "all" "beta" "min" 3)
           line5_padded [true; true; true; true; true] [0; 5; 2; 3; 1]%float
           [5; 5; 2; 3; 1]%float 0).
  - reflexivity.
  - vm_compute. reflexivity.
Defined.

Lemma coord_map_read_back_by_id_witness :
  let w := flat_world "surfaceTemperature" [0; 0; 0; 0; 0]%float in
  let w' := {| variables := variables w; id_map_txt := Some [2; 2; 4] |} in
  length [2; 4] = length (x_exo_layer line_samples)
  /\ variables w' = variables w
  /\ id_map_txt w' = Some (Z.of_nat (length (x_exo_layer line_samples)) :: [2; 4])
  /\ forall pf' opts' msh' ex' w'',
       conversion_method opts' = "id" ->
       id_map_txt w' = Some (usefulCellID ex') ->
       correspondence pf' opts' msh' ex' w'' = Done [2; 4] w''.
Proof.
  apply (coord_map_read_back_by_id ascending_first
           (run_options "coord" "all" "surfaceTemperature" "min" 3) line5 line_samples
           (flat_world "surfaceTemperature" [0; 0; 0; 0; 0]%float)).
  - reflexivity.
  - discriminate.
  - vm_compute. reflexivity.
Defined.

Lemma coord_ids_match_their_samples_witness :
  exists cell xe ye xc yc,
    4 = wrap32 (Z.of_nat cell + 1)
    /\ x_exo_layer line_samples !! 1%nat = Some xe
    /\ y_exo_layer line_samples !! 1%nat = Some ye
    /\ xCell line5 !! cell = Some xc /\ yCell line5 !! cell = Some yc
    /\ close_to xe xc = true /\ close_to ye yc = true.
Proof.
  apply (coord_ids_match_their_samples ascending_first line5 line_samples [2; 4]).
  - intros j js. by left.
  - vm_compute. reflexivity.
  - reflexivity.
Defined.

Lemma grounded_mask_without_bed_witness :
  build_mask (run_options "id" "grd" "beta" "min" 3) isolated3
    (flat_world "thickness" [1; 0; 2]%float)
  = Done (map (fun t => (0 <? t * 910.0 / 1028.0 + 0)%float) [1; 0; 2]%float)
      (flat_world "thickness" [1; 0; 2]%float).
Proof.
  apply grounded_mask_without_bed; reflexivity.
Defined.

Lemma mask_length_mismatch_witness :
  build_mask (run_options "id" "all" "beta" "min" 3) line5 (ice_world 1 2)
  = Halt IndexError (ice_world 1 2).
Proof.
  apply (mask_length_mismatch _ _ _ [1%float]);
    [reflexivity | reflexivity | | discriminate].
  intros levels. vm_compute. discriminate.
Defined.

Lemma flat_write_lands_on_mapped_cells_witness :
  let vals := [0; 0; 0; 0; 0]%float in
  let w := flat_world "surfaceTemperature" vals in
  let w' := flat_world "surfaceTemperature" [7; 8; 0; 0; 0]%float in
  exists vals',
    variables w' = <["surfaceTemperature" := Data2 vals']> (variables w)
    /\ id_map_txt w' = id_map_txt w
    /\ length vals' = length vals
    /\ (forall k, (forall j, j ∈ [1; 2] -> cell_of (length vals) j <> Some k) ->
                  vals' !! k = vals !! k)
    /\ ((forall i i' j j' k, [1; 2] !! i = Some j -> [1; 2] !! i' = Some j' ->
           cell_of (length vals) j = Some k -> cell_of (length vals) j' = Some k ->
           i = i') ->
        forall i j k v, [1; 2] !! i = Some j -> cell_of (length vals) j = Some k ->
                        data_exo_layer miscounted_samples !! i = Some v ->
                        vals' !! k = Some v).
Proof.
  apply (flat_write_lands_on_mapped_cells ascending_first
           (run_options "id" "all" "surfaceTemperature" "min" 3) line5 miscounted_samples
           (flat_world "surfaceTemperature" [0; 0; 0; 0; 0]%float)
           (flat_world "surfaceTemperature" [7; 8; 0; 0; 0]%float)
           "surface_air_temperature" 5 [1; 2] [0; 0; 0; 0; 0]%float);
    try discriminate; vm_compute; reflexivity.
Defined.

Lemma flat_write_rejects_bad_id_witness :
  convert ascending_first (run_options "id" "all" "surfaceTemperature" "min" 3) line5
    bad_id_samples (flat_world "surfaceTemperature" [0; 0; 0; 0; 0]%float)
  = Halt IndexError (flat_world "surfaceTemperature" [0; 0; 0; 0; 0]%float).
Proof.
  apply (flat_write_rejects_bad_id ascending_first _ line5 bad_id_samples _
           "surface_air_temperature" 2 [1; 9] [0; 0; 0; 0; 0]%float 9);
    try reflexivity; try discriminate.
  apply list_elem_of_In. right. by left.
Defined.

Lemma every_level_gets_the_first_layer_witness :
  let w := layered_world "temperature" in
  let w' := {| variables := {[ "temperature" := Data3 [[7; 0; 8]; [7; 1; 8]]%float ]};
               id_map_txt := None |} in
  exists levels',
    Forall2 (fun lev lev' =>
               np_put lev (map (fun c => wrap32 (c - 1)) [1; 3])
                      (data_exo_layer outer_samples) = Ok lev')
            [[0; 0; 0]; [1; 1; 1]]%float levels'
    /\ variables w' = <["temperature" := Data3 levels']> (variables w)
    /\ id_map_txt w' = id_map_txt w.
Proof.
  apply (every_level_gets_the_first_layer ascending_first
           (run_options "id" "all" "temperature" "min" 3)
           ltac:(discriminate) ltac:(discriminate)
           isolated3 outer_samples (layered_world "temperature")
           {| variables := {[ "temperature" := Data3 [[7; 0; 8]; [7; 1; 8]]%float ]};
              id_map_txt := None |}
           "temperature" 2 [1; 3] [[0; 0; 0]; [1; 1; 1]]%float);
    try discriminate; vm_compute; reflexivity.
Defined.

Lemma column_wise_takes_every_stride_witness :
  exists x_layer y_layer data_layer,
    load_layer "ice_thickness" (two_layers 1 2)
    = Loaded x_layer y_layer data_layer (stride (two_layers 1 2))
    /\ (forall i, data_layer !! i
                  = data_exo_of "ice_thickness" (node_values (two_layers 1 2))
                      !! (i * Z.to_nat (stride (two_layers 1 2)))%nat)
    /\ (forall i, x_layer !! i
                  = (fun c => c * 1000)%float <$> coord_x (two_layers 1 2)
                      !! (i * Z.to_nat (stride (two_layers 1 2)))%nat)
    /\ (forall i, y_layer !! i
                  = (fun c => c * 1000)%float <$> coord_y (two_layers 1 2)
                      !! (i * Z.to_nat (stride (two_layers 1 2)))%nat).
Proof.
  apply (column_wise_takes_every_stride "ice_thickness" (two_layers 1 2));
    [reflexivity | reflexivity].
Defined.

Lemma layer_wise_takes_one_more_than_stride_witness :
  exists x_layer y_layer data_layer,
    load_layer "basal_friction" (two_layers 0 5)
    = Loaded x_layer y_layer data_layer
        (Z.of_nat (length (node_values (two_layers 0 5))) / stride (two_layers 0 5))
    /\ data_layer = take (S (Z.to_nat (stride (two_layers 0 5))))
                         (data_exo_of "basal_friction" (node_values (two_layers 0 5)))
    /\ length data_layer
       = Nat.min (S (Z.to_nat (stride (two_layers 0 5)))) (length (node_values (two_layers 0 5)))
    /\ length x_layer
       = Nat.min (S (Z.to_nat (stride (two_layers 0 5)))) (length (coord_x (two_layers 0 5)))
    /\ length y_layer
       = Nat.min (S (Z.to_nat (stride (two_layers 0 5)))) (length (coord_y (two_layers 0 5))).
Proof.
  apply (layer_wise_takes_one_more_than_stride "basal_friction" (two_layers 0 5));
    reflexivity.
Defined.

(** The loader on ten nodes in two layers of five: layer-wise ordering
    yields six samples, one more than a layer holds; column-wise ordering
    with two levels yields five, in metres. *)
Example loader_on_two_layers :
  load_layer "basal_friction" (two_layers 0 5)
  = Loaded [0; 1000; 2000; 3000; 4000; 5000]%float [0; 0; 0; 0; 0; 0]%float
           [0; 1; 2; 3; 4; 5]%float 2
  /\ load_layer "ice_thickness" (two_layers 1 2)
     = Loaded [0; 2000; 4000; 6000; 8000]%float [0; 0; 0; 0; 0]%float
              [0; 2000; 4000; 6000; 8000]%float 2.
Proof. split; vm_compute; reflexivity. Qed.

(** * A variable that the dataset lacks *)

Section AbsentField.

Variable pf : platform.

Lemma correspondence_keeps_variables (opts : options) (msh : mesh) (ex : samples)
    (w w1 : world) (ids : list Z) :
  correspondence pf opts msh ex w = Done ids w1 -> variables w1 = variables w.
Proof.
  unfold correspondence.
  destruct (String.eqb (conversion_method opts) "coord").
  - unfold bindM, lift, savetxt, ret.
    destruct (coord_ids pf msh ex); [|done]. by intros [= _ <-].
  - destruct (String.eqb (conversion_method opts) "id"); unfold lift.
    + destruct (id_ids (usefulCellID ex)); [|done]. by intros [= _ <-].
    + done.
Qed.

Lemma correspondence_halt_keeps_world (opts : options) (msh : mesh) (ex : samples)
    (w w1 : world) (e : py_error) :
  correspondence pf opts msh ex w = Halt e w1 -> w1 = w.
Proof.
  unfold correspondence.
  destruct (String.eqb (conversion_method opts) "coord").
  - unfold bindM, lift, savetxt, ret.
    destruct (coord_ids pf msh ex); [done|]. by intros [= _ <-].
  - destruct (String.eqb (conversion_method opts) "id"); unfold lift.
    + destruct (id_ids (usefulCellID ex)); [done|]. by intros [= _ <-].
    + by intros [= _ <-].
Qed.

(** C5 (lines 139 and 163-179): when the dataset has no variable of the
    requested name, and the name is neither [beta] nor [thickness], the write
    dispatch ends with the KeyError of [dataset.variables[name]] and leaves
    the dataset as it is; every run of the transplant ends with an error and
    with every variable as it was; and a run that gets as far as the write
    loop (the name is in the dictionary, the correspondence is done) ends
    with that KeyError at line 139.  The error is Python's KeyError on the
    name: the exit of line 177 is never taken. *)
Theorem absent_field_halts_without_write (opts : options) (w : world) :
  variables w !! var_name opts = None ->
  var_name opts <> "beta" -> var_name opts <> "thickness" ->
  (forall ids data nVert,
     write_level pf opts ids data 1 nVert w = Halt (KeyError (var_name opts)) w)
  /\ (forall msh ex, exists e w1,
        convert pf opts msh ex w = Halt e w1 /\ variables w1 = variables w)
  /\ (forall msh ex exo_var_name ids w1,
        dict_get mpas_exodus_var_dic (var_name opts) = Ok exo_var_name ->
        correspondence pf opts msh ex w = Done ids w1 ->
        convert pf opts msh ex w = Halt (KeyError (var_name opts)) w1
        /\ variables w1 = variables w).
Proof.
  intros Habs Hb Ht. split; [|split].
  - intros ids data nVert. unfold write_level.
    apply String.eqb_neq in Hb, Ht. rewrite Hb, Ht. simpl.
    unfold bindM. rewrite name_in_keys_eq_False_never.
    unfold assign2, bindM, get_var. by rewrite Habs.
  - intros msh ex. unfold convert, bindM, lift.
    destruct (dict_get mpas_exodus_var_dic (var_name opts)) as [exo_var_name|e];
      [|by exists e, w].
    destruct (correspondence pf opts msh ex w) as [ids w1|e w1] eqn:Hc.
    + pose proof (correspondence_keeps_variables _ _ _ _ _ _ Hc) as Hvars.
      exists (KeyError (var_name opts)), w1. split; [|done].
      unfold get_var. by rewrite Hvars, Habs.
    + apply correspondence_halt_keeps_world in Hc as ->. by exists e, w.
  - intros msh ex exo_var_name ids w1 Hd Hc.
    pose proof (correspondence_keeps_variables _ _ _ _ _ _ Hc) as Hvars.
    split; [|done].
    unfold convert, bindM, lift. rewrite Hd, Hc.
    unfold get_var. by rewrite Hvars, Habs.
Qed.

End AbsentField.

Lemma absent_field_halts_without_write_witness :
  let opts := run_options "id" "all" "uReconstructX" "min" 0 in
  write_level ascending_first opts [1] [5%float] 1 0 (ice_world 1 2)
  = Halt (KeyError "uReconstructX") (ice_world 1 2)
  /\ convert ascending_first opts one_cell (one_sample 5) (ice_world 1 2)
     = Halt (KeyError "uReconstructX") (ice_world 1 2).
Proof.
  destruct (absent_field_halts_without_write ascending_first
              (run_options "id" "all" "uReconstructX" "min" 0) (ice_world 1 2))
    as (Hwrite & _ & Hrun); [reflexivity | discriminate | discriminate |].
  split; [apply Hwrite|].
  apply (Hrun one_cell (one_sample 5) "solution_1" [1] (ice_world 1 2));
    reflexivity.
Defined.

(** * One pass on a mesh with a padding slot inside a declared degree *)

(** C4 (lines 221-253), on [line5_padded] with only cell 4 set: the slots
    of cell 0 within its declared degree are its neighbour, cell 1 (id 2),
    and the padding value; cell 1 is not set, and cell 4 is four cells away.
    One ring around cell 4 is cell 3 alone, yet the pass also sets cell 0
    and gives it the value of cell 4: the padding entry is read as index -1,
    the last cell.  The smoothing loop filters such entries out; the
    extrapolation loop does not. *)
Theorem pass_grows_beyond_adjacency_at_failing_input :
  let opts := run_options "id" "all" "beta" "min" 3 in
  let mask := [false; false; false; false; true] in
  extrapolation_pass opts line5_padded mask ([0; 0; 0; 0; 20]%float, mask)
  = Ok ([20; 0; 0; 20; 20]%float, [true; false; false; true; true])
  /\ py_slice_to [2; 0] 2 = [2; 0]
  /\ cellsOnCell line5_padded !! 0%nat = Some [2; 0]
  /\ nEdgesOnCell line5_padded !! 0%nat = Some 2
  /\ mask !! 1%nat = Some false
  /\ neighborCellId line5_padded 0 = Ok [1; -1]
  /\ neighborCellId line5_padded 4 = Ok [3]
  /\ cell_nonzero_id [1; -1] = [1].
Proof.
  cbv zeta. repeat split; vm_compute; reflexivity.
Qed.

(** * The padding value in the two loop bodies *)

Section PaddingInPhases.

Variable msh : mesh.
Variable mask : list bool.
Variable iCell : nat.
Variable row : list Z.
Variable n : Z.

Hypothesis Hrow : cellsOnCell msh !! iCell = Some row.
Hypothesis Hn : nEdgesOnCell msh !! iCell = Some n.
Hypothesis Hpad : 0 ∈ py_slice_to row n.
Hypothesis Hlen : length mask = nCells msh.
Hypothesis Hpos : (0 < nCells msh)%nat.

Lemma padded_ids :
  neighborCellId msh iCell = Ok (map (fun c => wrap32 (c - 1)) (py_slice_to row n)).
Proof.
  unfold neighborCellId. by rewrite (py_get_nat _ _ _ Hn), (py_get_nat _ _ _ Hrow).
Qed.

Lemma padded_ids_have_minus_one :
  -1 ∈ map (fun c => wrap32 (c - 1)) (py_slice_to row n).
Proof.
  apply list_elem_of_In, in_map_iff. exists 0. split; [reflexivity|].
  by apply list_elem_of_In.
Qed.

Lemma py_get_last {A} (a : list A) (v : A) :
  length a = nCells msh -> a !! (nCells msh - 1)%nat = Some v -> py_get a (-1) = Ok v.
Proof.
  intros Ha Hv. unfold py_get. rewrite Ha, (py_index_last _ Hpos). by rewrite Hv.
Qed.

Lemma mapM_const {A B} (f : A -> result B) (l : list A) (b : B) :
  (forall a, a ∈ l -> f a = Ok b) -> mapM f l = Ok (replicate (length l) b).
Proof.
  induction l as [|a l IH]; intros H; simpl; [done|].
  rewrite H by (by left). cbn [rbind]. rewrite IH; [done|].
  intros a' Ha'. apply H. by right.
Qed.

Lemma mapM_all_Ok {A B} (f : A -> result B) (l : list A) :
  (forall a, a ∈ l -> exists b, f a = Ok b) -> exists bs, mapM f l = Ok bs.
Proof.
  induction l as [|a l IH]; intros H; simpl; [eauto|].
  destruct (H a) as [b ->]; [by left|]. cbn [rbind].
  destruct IH as [bs ->]; [|cbn [rbind]; eauto].
  intros a' Ha'. apply H. by right.
Qed.

Lemma filter_none {A} (P : A -> Prop) `{forall x, Decision (P x)} (l : list A) :
  (forall x, x ∈ l -> ~ P x) -> filter P l = [].
Proof.
  intros Hno. destruct (filter P l) as [|x l'] eqn:Hf; [done|].
  assert (Hx : x ∈ filter P l) by (rewrite Hf; by left).
  apply list_elem_of_filter in Hx as [HP Hin]. by destruct (Hno x Hin).
Qed.

Lemma py_set_nat_lt {A} (a : list A) (i : nat) (v : A) :
  (i < length a)%nat -> py_set a (Z.of_nat i) v = Ok (<[i := v]> a).
Proof.
  intros Hlt. unfold py_set, py_index.
  replace (0 <=? Z.of_nat i) with true by (symmetry; apply Z.leb_le; lia).
  replace (Z.of_nat i <? Z.of_nat (length a)) with true by (symmetry; apply Z.ltb_lt; lia).
  simpl. by rewrite Nat2Z.id.
Qed.

Lemma zip_with_replicate {A B C} (f : A -> B -> C) (k : nat) (a : A) (b : B) :
  zip_with f (replicate k a) (replicate k b) = replicate k (f a b).
Proof. induction k as [|k IH]; simpl; [done|]. by rewrite IH. Qed.

Lemma count_nonzero_replicate (k : nat) (d : float) :
  nonzero d = true -> np_count_nonzero nonzero (replicate k d) = k.
Proof.
  intros Hd. unfold np_count_nonzero. induction k as [|k IH]; simpl; [done|].
  rewrite filter_cons_True by done. simpl. by rewrite IH.
Qed.

Lemma np_min_replicate (k : nat) (v : float) :
  np_min (replicate (S k) v) = Ok v.
Proof.
  simpl. f_equal. induction k as [|k IH]; simpl; [done|].
  replace (np_minimum v v) with v; [done|].
  unfold np_minimum. by destruct ((v <? v)%float || is_nan v).
Qed.

(** With the last cell set, the padding entry is among the active ids: the
    loop body of the extrapolation cannot skip the cell. *)
Lemma padded_cell_is_filled (opts : options) (fld fld' : list float)
    (next next' : list bool) :
  mask !! (nCells msh - 1)%nat = Some true ->
  extrapolate_cell opts msh mask (fld, next) iCell = Ok (fld', next') ->
  next' = <[iCell := true]> next /\ exists v, fld' = <[iCell := v]> fld.
Proof.
  intros Hlast Hstep.
  destruct (active_among mask (map (fun c => wrap32 (c - 1)) (py_slice_to row n)))
    as [nz|] eqn:Hact.
  - assert (Hin : -1 ∈ nz).
    { rewrite (active_among_Ok _ _ _ Hact). apply list_elem_of_filter.
      split; [|apply padded_ids_have_minus_one].
      unfold active_at. by rewrite (py_get_last mask true Hlen Hlast). }
    apply extrapolate_cell_Ok in Hstep
      as [(Hno & _)|(_ & _ & _ & Hv & ->)]; [|done].
    exfalso. apply Hno.
    exists (map (fun c => wrap32 (c - 1)) (py_slice_to row n)), nz.
    split; [apply padded_ids|]. split; [done|].
    intros ->. by apply elem_of_nil in Hin.
  - unfold extrapolate_cell in Hstep. rewrite padded_ids in Hstep.
    cbn [rbind] in Hstep. by rewrite Hact in Hstep.
Qed.

Lemma foldM_Ok_step {S A} (f : S -> A -> result S) (l : list A) (s s' : S) (a : A) :
  foldM f l s = Ok s' -> a ∈ l -> exists s1 s2, f s1 a = Ok s2.
Proof.
  revert s. induction l as [|b l IH]; intros s Hfold Ha; [by apply elem_of_nil in Ha|].
  cbn [foldM] in Hfold. destruct (f s b) as [s1|] eqn:Hstep; [|done].
  cbn [rbind] in Hfold.
  apply elem_of_cons in Ha as [->|Ha]; [by exists s, s1|]. by apply (IH s1).
Qed.

(** A pass that returns has run the loop body on the cell, so with the last
    cell set the cell is set in the next mask. *)
Lemma padded_cell_set_by_pass (opts : options) (fld fld' : list float)
    (next' : list bool) :
  mask !! (nCells msh - 1)%nat = Some true ->
  mask !! iCell = Some false ->
  extrapolation_pass opts msh mask (fld, mask) = Ok (fld', next') ->
  next' !! iCell = Some true.
Proof.
  intros Hlast Hoff Hpass.
  assert (Hsearch : iCell ∈ np_where negb mask) by (by apply searchCells_inactive).
  destruct (foldM_Ok_step _ _ _ _ iCell Hpass Hsearch) as ([fld1 next1] & [fld2 next2] & Hstep).
  destruct (pass_one_ring opts msh mask fld fld' next' Hpass) as [_ Hring].
  apply Hring. right. split; [done|].
  destruct (active_among mask (map (fun c => wrap32 (c - 1)) (py_slice_to row n)))
    as [nz|] eqn:Hact.
  - exists (map (fun c => wrap32 (c - 1)) (py_slice_to row n)), nz.
    split; [apply padded_ids|]. split; [done|].
    intros ->. apply active_among_Ok in Hact.
    assert (Hin : -1 ∈ filter (fun j => active_at mask j = true)
                          (map (fun c => wrap32 (c - 1)) (py_slice_to row n))).
    { apply list_elem_of_filter. split; [|apply padded_ids_have_minus_one].
      unfold active_at. by rewrite (py_get_last mask true Hlen Hlast). }
    rewrite <- Hact in Hin. by apply elem_of_nil in Hin.
  - unfold extrapolate_cell in Hstep. rewrite padded_ids in Hstep.
    cbn [rbind] in Hstep. by rewrite Hact in Hstep.
Qed.

Section OnlyThePadding.

(** The last cell is set and every other slot of the cell refers to a cell
    that is not. *)
Hypothesis Hlast : mask !! (nCells msh - 1)%nat = Some true.
Hypothesis Hunset :
  forall c, c ∈ py_slice_to row n -> c <> 0 -> py_get mask (wrap32 (c - 1)) = Ok false.

Lemma padded_ids_read (j : Z) :
  j ∈ map (fun c => wrap32 (c - 1)) (py_slice_to row n) ->
  (j = -1 /\ py_get mask j = Ok true) \/ (j <> -1 /\ py_get mask j = Ok false).
Proof.
  intros Hj. apply list_elem_of_In, in_map_iff in Hj as (c & <- & Hc).
  apply list_elem_of_In in Hc.
  destruct (decide (c = 0)) as [->|Hne].
  - left. split; [reflexivity|]. apply (py_get_last mask true Hlen Hlast).
  - destruct (decide (wrap32 (c - 1) = -1)) as [Heq|Hneq].
    + left. split; [done|]. rewrite Heq. apply (py_get_last mask true Hlen Hlast).
    + right. split; [done|]. by apply Hunset.
Qed.

Lemma only_padding_is_active :
  exists k,
    active_among mask (map (fun c => wrap32 (c - 1)) (py_slice_to row n))
    = Ok (replicate (S k) (-1)).
Proof.
  set (ids := map (fun c => wrap32 (c - 1)) (py_slice_to row n)).
  destruct (mapM_all_Ok (py_get mask) ids) as [bs Hbs].
  { intros j Hj. destruct (padded_ids_read j Hj) as [[_ ->]|[_ ->]]; eauto. }
  rewrite (active_among_filter mask ids bs Hbs).
  set (nz := filter (fun j => active_at mask j = true) ids).
  assert (Hall : forall j, j ∈ nz -> j = -1).
  { intros j Hj. apply list_elem_of_filter in Hj as [Hon Hj].
    destruct (padded_ids_read j Hj) as [[-> _]|[_ Hoff]]; [done|].
    unfold active_at in Hon. by rewrite Hoff in Hon. }
  assert (Hin : -1 ∈ nz).
  { apply list_elem_of_filter. split; [|apply padded_ids_have_minus_one].
    unfold active_at. by rewrite (py_get_last mask true Hlen Hlast). }
  assert (Hrep : nz = replicate (length nz) (-1)).
  { clear Hin. induction nz as [|j nz' IH]; [done|]. simpl.
    rewrite (Hall j) by (by left). f_equal. apply IH.
    intros j' Hj'. apply Hall. by right. }
  destruct nz as [|j nz']; [by apply elem_of_nil in Hin|].
  exists (length nz'). by rewrite Hrep.
Qed.

Lemma no_real_neighbor_is_active :
  active_among mask (cell_nonzero_id (map (fun c => wrap32 (c - 1)) (py_slice_to row n)))
  = Ok [].
Proof.
  set (ids := map (fun c => wrap32 (c - 1)) (py_slice_to row n)).
  assert (Hoff : forall j, j ∈ cell_nonzero_id ids -> py_get mask j = Ok false).
  { intros j Hj.
    assert (Hne : j <> -1).
    { intros ->. by apply (cell_nonzero_id_drops_padding ids). }
    unfold cell_nonzero_id in Hj. apply list_elem_of_omap in Hj as (p & _ & Hp).
    apply list_elem_of_lookup_2 in Hp.
    destruct (padded_ids_read j Hp) as [[-> _]|[_ ->]]; done. }
  rewrite (active_among_filter mask _ _ (mapM_const _ _ false Hoff)).
  f_equal. apply filter_none. intros j Hj. unfold active_at.
  by rewrite (Hoff j Hj).
Qed.

(** The smoothing loop finds no active neighbour for the cell. *)
Lemma padded_cell_not_smoothed (opts : options) (fld : list float) :
  smooth_cell opts msh mask fld iCell = Raise AssertionError.
Proof.
  unfold smooth_cell. rewrite padded_ids. cbn [rbind].
  by rewrite no_real_neighbor_is_active.
Qed.

(** The extrapolation loop, with the [min] rule, gives the cell the value
    of the last cell. *)
Lemma padded_cell_gets_last_value (opts : options) (fld : list float) (next : list bool)
    (xi yi xl yl vl : float) :
  extrapolation opts = "min" ->
  length (xCell msh) = nCells msh -> length (yCell msh) = nCells msh ->
  length fld = nCells msh ->
  xCell msh !! iCell = Some xi -> yCell msh !! iCell = Some yi ->
  xCell msh !! (nCells msh - 1)%nat = Some xl ->
  yCell msh !! (nCells msh - 1)%nat = Some yl ->
  fld !! (nCells msh - 1)%nat = Some vl ->
  nonzero (PrimFloat.sqrt ((xi - xl) * (xi - xl) + (yi - yl) * (yi - yl))) = true ->
  (iCell < length next)%nat ->
  extrapolate_cell opts msh mask (fld, next) iCell
  = Ok (<[iCell := vl]> fld, <[iCell := true]> next).
Proof.
  intros Hrule Hlx Hly Hlf Hxi Hyi Hxl Hyl Hvl Hd Hnext.
  destruct only_padding_is_active as [k Hact].
  assert (Htake : forall (a : list float) (v : float),
             length a = nCells msh -> a !! (nCells msh - 1)%nat = Some v ->
             np_take a (replicate (S k) (-1)) = Ok (replicate (S k) v)).
  { intros a v Ha Hv. unfold np_take.
    rewrite (mapM_const (py_get a) (replicate (S k) (-1)) v).
    - by rewrite length_replicate.
    - intros j Hj. apply elem_of_replicate in Hj as [-> _]. by apply py_get_last. }
  assert (Hg : gather msh fld iCell (replicate (S k) (-1))
               = Ok (replicate (S k)
                       (PrimFloat.sqrt ((xi - xl) * (xi - xl) + (yi - yl) * (yi - yl)))%float,
                     replicate (S k) vl)).
  { unfold gather.
    rewrite (py_get_nat _ _ _ Hxi), (py_get_nat _ _ _ Hyi). cbn [rbind].
    rewrite (Htake _ _ Hlx Hxl), (Htake _ _ Hly Hyl). cbn [rbind].
    unfold distances. rewrite zip_with_replicate.
    rewrite count_nonzero_replicate by done.
    rewrite length_replicate, Nat.eqb_refl.
    by rewrite (Htake _ _ Hlf Hvl). }
  unfold extrapolate_cell. rewrite padded_ids. cbn [rbind].
  rewrite Hact. cbn [rbind]. rewrite length_replicate.
  change (0 <? S k)%nat with true. cbv iota.
  rewrite Hg. cbn [rbind]. rewrite Hrule.
  change (String.eqb "min" "idw") with false.
  change (String.eqb "min" "min") with true. cbv iota.
  rewrite np_min_replicate. cbn [rbind].
  assert (Hlt : (iCell < length fld)%nat).
  { apply lookup_lt_Some in Hxi. lia. }
  rewrite (py_set_nat_lt fld iCell vl Hlt). cbn [rbind].
  by rewrite (py_set_nat_lt next iCell true Hnext).
Qed.

(** A smoothing loop that has the cell to visit, and at least one iteration
    to make, ends with an error. *)
Lemma padded_cell_stops_smoothing (opts : options) (old : list bool) (fld : list float) :
  old !! iCell = Some false -> 0 < smooth_iter_num opts ->
  exists e, smoothing opts msh old mask fld = Raise e.
Proof.
  intros Hold Hiter. unfold smoothing.
  destruct (Z.to_nat (smooth_iter_num opts)) as [|k] eqn:Hk; [lia|].
  cbn [smoothing_iters].
  destruct (smoothing_pass opts msh old mask fld) as [fld1|e] eqn:Hpass;
    [|by exists e].
  exfalso. unfold smoothing_pass in Hpass.
  assert (Hsearch : iCell ∈ np_where negb old) by (by apply searchCells_inactive).
  destruct (foldM_Ok_step _ _ _ _ iCell Hpass Hsearch) as (f1 & f2 & Hstep).
  by rewrite padded_cell_not_smoothed in Hstep.
Qed.

End OnlyThePadding.

(** C10 (lines 224-230 and 266-268): take a cell whose neighbour slots, up
    to its declared degree, contain the padding value 0.  Extrapolation
    keeps the entry as id -1, which reads the last cell, [nCells - 1], in the
    mask and in every array over the cells, while smoothing drops it.  So
    with the last cell set, the extrapolation loop body never skips the
    cell: whenever it returns, the cell is filled and set, and a pass that
    starts with the cell unset returns with it set.  And when every other
    slot of the cell refers to an unset cell, the extrapolation body under
    the [min] rule stores the value of the last cell in it, while the
    smoothing body, on the same mask, finds no active neighbour and fails
    its assertion, so that a smoothing loop that visits the cell ends with
    an error. *)
Theorem padding_neighbor_is_last_cell_in_extrapolation :
  exists ids,
    neighborCellId msh iCell = Ok ids
    /\ -1 ∈ ids
    /\ py_index (length mask) (-1) = Some (nCells msh - 1)%nat
    /\ (forall (a : list float) (v : float),
          length a = nCells msh -> a !! (nCells msh - 1)%nat = Some v ->
          py_get a (-1) = Ok v)
    /\ (mask !! (nCells msh - 1)%nat = Some true ->
        forall nonzero_id, active_among mask ids = Ok nonzero_id -> -1 ∈ nonzero_id)
    /\ (-1 ∉ cell_nonzero_id ids)
    /\ (mask !! (nCells msh - 1)%nat = Some true ->
        forall opts fld next fld' next',
          extrapolate_cell opts msh mask (fld, next) iCell = Ok (fld', next') ->
          next' = <[iCell := true]> next /\ exists v, fld' = <[iCell := v]> fld)
    /\ (mask !! (nCells msh - 1)%nat = Some true -> mask !! iCell = Some false ->
        forall opts fld fld' next',
          extrapolation_pass opts msh mask (fld, mask) = Ok (fld', next') ->
          next' !! iCell = Some true)
    /\ (mask !! (nCells msh - 1)%nat = Some true ->
        (forall c, c ∈ py_slice_to row n -> c <> 0 ->
                   py_get mask (wrap32 (c - 1)) = Ok false) ->
        (forall opts fld, smooth_cell opts msh mask fld iCell = Raise AssertionError)
        /\ (forall opts old fld,
              old !! iCell = Some false -> 0 < smooth_iter_num opts ->
              exists e, smoothing opts msh old mask fld = Raise e)
        /\ (forall opts fld next xi yi xl yl vl,
              extrapolation opts = "min" ->
              length (xCell msh) = nCells msh -> length (yCell msh) = nCells msh ->
              length fld = nCells msh ->
              xCell msh !! iCell = Some xi -> yCell msh !! iCell = Some yi ->
              xCell msh !! (nCells msh - 1)%nat = Some xl ->
              yCell msh !! (nCells msh - 1)%nat = Some yl ->
              fld !! (nCells msh - 1)%nat = Some vl ->
              nonzero (PrimFloat.sqrt ((xi - xl) * (xi - xl) + (yi - yl) * (yi - yl))) = true ->
              (iCell < length next)%nat ->
              extrapolate_cell opts msh mask (fld, next) iCell
              = Ok (<[iCell := vl]> fld, <[iCell := true]> next))).
Proof.
  exists (map (fun c => wrap32 (c - 1)) (py_slice_to row n)).
  split; [apply padded_ids|]. split; [apply padded_ids_have_minus_one|].
  split; [rewrite Hlen; by apply py_index_last|].
  split; [intros a v; apply py_get_last|].
  split.
  { intros Hlast nonzero_id Hact. rewrite (active_among_Ok _ _ _ Hact).
    apply list_elem_of_filter. split; [|apply padded_ids_have_minus_one].
    unfold active_at. by rewrite (py_get_last mask true Hlen Hlast). }
  split; [apply cell_nonzero_id_drops_padding|].
  split.
  { intros Hlast opts fld next fld' next'. by apply padded_cell_is_filled. }
  split.
  { intros Hlast Hoff opts fld fld' next'. by apply padded_cell_set_by_pass. }
  intros Hlast Hunset. split; [|split].
  - intros opts fld. by apply padded_cell_not_smoothed.
  - intros opts old fld. by apply padded_cell_stops_smoothing.
  - intros opts fld next xi yi xl yl vl. by apply padded_cell_gets_last_value.
Qed.

End PaddingInPhases.

Lemma padding_neighbor_is_last_cell_in_extrapolation_witness :
  let opts := run_options "id" "all" "beta" "min" 3 in
  let mask := [false; false; false; false; true] in
  extrapolate_cell opts line5_padded mask ([0; 0; 0; 0; 20]%float, mask) 0
  = Ok ([20; 0; 0; 0; 20]%float, [true; false; false; false; true])
  /\ smooth_cell opts line5_padded mask [0; 0; 0; 0; 20]%float 0
     = Raise AssertionError
  /\ (exists e, smoothing opts line5_padded mask mask [0; 0; 0; 0; 20]%float = Raise e)
  /\ [true; false; false; true; true] !! 0%nat = Some true.
Proof.
  destruct (padding_neighbor_is_last_cell_in_extrapolation line5_padded
              [false; false; false; false; true] 0%nat [2; 0] 2)
    as (ids & _ & _ & _ & _ & _ & _ & _ & Hpass & Hboth).
  - reflexivity.
  - reflexivity.
  - vm_compute. apply list_elem_of_In. right. by left.
  - reflexivity.
  - vm_compute. lia.
  - destruct Hboth as (Hsmooth & Hloop & Hfill).
    + reflexivity.
    + intros c Hc Hne. vm_compute in Hc.
      apply list_elem_of_In in Hc as [<-|[<-|[]]]; [reflexivity|done].
    + split; [|split; [apply Hsmooth|split]].
      * apply (Hfill (run_options "id" "all" "beta" "min" 3) [0; 0; 0; 0; 20]%float
                 [false; false; false; false; true] 0%float 0%float 4%float 0%float
                 20%float); try reflexivity.
        vm_compute. lia.
      * apply Hloop; reflexivity.
      * apply (Hpass eq_refl eq_refl (run_options "id" "all" "beta" "min" 3)
                 [0; 0; 0; 0; 20]%float [20; 0; 0; 20; 20]%float).
        vm_compute. reflexivity.
Defined.

(** * A stored id of zero *)

Section ZeroId.

Variable pf : platform.

Lemma py_index_minus_one (n k : nat) :
  py_index n (-1) = Some k -> k = (n - 1)%nat /\ (0 < n)%nat.
Proof.
  unfold py_index. simpl.
  destruct (Z.leb_spec (- Z.of_nat n) (-1)) as [Hle|Hgt]; simpl; [|done].
  intros [= <-]. lia.
Qed.

Lemma np_put_Ok_index {A} (a a' : list A) (ids : list Z) (vals : list A) (j : Z) :
  np_put a ids vals = Ok a' -> j ∈ ids -> is_Some (py_index (length a) j).
Proof.
  unfold np_put. intros H Hj.
  destruct (mapM _ ids) as [js|] eqn:Hjs; [|done].
  apply mapM_Ok in Hjs. apply list_elem_of_lookup in Hj as [i Hi].
  destruct (Forall2_lookup_l _ _ _ _ _ Hjs Hi) as (k & _ & Hk).
  destruct (py_index (length a) j); [eauto|done].
Qed.

(** X15 (lines 130-179): in a successful [id] conversion of a rank-2
    variable other than [beta] and [thickness], when no two stored ids refer
    to the same cell, the sample of a stored id 0 ends up in the last cell of
    the variable: [usefulCellID_array - 1] is -1 there. *)
Theorem stored_id_zero_writes_last_cell (opts : options) (msh : mesh) (ex : samples)
    (w w' : world) (exo_var_name : string) (declared : Z) (ids : list Z)
    (vals : list float) (i : nat) (v : float) :
  dict_get mpas_exodus_var_dic (var_name opts) = Ok exo_var_name ->
  var_name opts <> "beta" -> var_name opts <> "thickness" ->
  conversion_method opts = "id" ->
  usefulCellID ex = declared :: ids ->
  variables w !! var_name opts = Some (Data2 vals) ->
  length (data_exo_layer ex) = length ids ->
  (forall i1 i2 j1 j2 k, ids !! i1 = Some j1 -> ids !! i2 = Some j2 ->
     cell_of (length vals) j1 = Some k -> cell_of (length vals) j2 = Some k ->
     i1 = i2) ->
  ids !! i = Some 0 ->
  data_exo_layer ex !! i = Some v ->
  convert pf opts msh ex w = Done tt w' ->
  exists vals',
    variables w' !! var_name opts = Some (Data2 vals')
    /\ length vals' = length vals
    /\ (0 < length vals)%nat
    /\ vals' !! (length vals - 1)%nat = Some v.
Proof.
  intros Hd Hb Ht Hm Hfile Hvar Hlen Hinj Hi Hv.
  assert (Hne : ids <> []) by (intros ->; done).
  rewrite (convert_flat_is_np_put pf opts msh ex w exo_var_name declared ids vals)
    by done.
  destruct (np_put vals _ _) as [vals'|] eqn:Hput; [|done].
  intros [= <-]. exists vals'. simpl.
  split; [by rewrite lookup_insert_eq|].
  assert (Hin : -1 ∈ map (fun c => wrap32 (c - 1)) ids).
  { apply list_elem_of_In, in_map_iff. exists 0. split; [reflexivity|].
    apply list_elem_of_In. by apply list_elem_of_lookup_2 in Hi. }
  destruct (np_put_Ok_index _ _ _ _ _ Hput Hin) as [k Hk].
  apply py_index_minus_one in Hk as Hlast. destruct Hlast as [-> Hpos].
  apply np_put_spec in Hput as (Hl & _ & Hat); [|by rewrite length_map].
  split; [done|]. split; [done|].
  apply (Hat) with (i := i) (j := -1); try done.
  - intros i1 i2 j1 j2 k0 H1 H2 Hk1 Hk2.
    apply lookup_cells in H1 as (c1 & Hc1 & ->).
    apply lookup_cells in H2 as (c2 & Hc2 & ->).
    by apply (Hinj i1 i2 c1 c2 k0).
  - by rewrite list_lookup_fmap, Hi.
Qed.

End ZeroId.

Lemma stored_id_zero_writes_last_cell_witness :
  let vals := [0; 0; 0; 0; 0]%float in
  exists vals',
    variables (flat_world "surfaceTemperature" [0; 8; 0; 0; 7]%float)
      !! "surfaceTemperature" = Some (Data2 vals')
    /\ length vals' = length vals
    /\ (0 < length vals)%nat
    /\ vals' !! (length vals - 1)%nat = Some 7%float.
Proof.
  apply (stored_id_zero_writes_last_cell ascending_first
           (run_options "id" "all" "surfaceTemperature" "min" 3) line5 zero_id_samples
           (flat_world "surfaceTemperature" [0; 0; 0; 0; 0]%float)
           (flat_world "surfaceTemperature" [0; 8; 0; 0; 7]%float)
           "surface_air_temperature" 2 [0; 2] [0; 0; 0; 0; 0]%float 0%nat 7%float).
  - reflexivity.
  - discriminate.
  - discriminate.
  - reflexivity.
  - reflexivity.
  - reflexivity.
  - reflexivity.
  - intros [|[|i1]] [|[|i2]] j1 j2 k H1 H2 Hk1 Hk2; try done;
      injection H1 as <-; injection H2 as <-; vm_compute in Hk1, Hk2; congruence.
  - reflexivity.
  - reflexivity.
  - vm_compute. reflexivity.
Defined.

(** A rank-3 variable with a single level takes the samples of the plain
    write of line 179 into that level. *)
Example single_level_write :
  convert ascending_first (run_options "id" "all" "temperature" "min" 3) line5
    miscounted_samples
    {| variables := {[ "temperature" := Data3 [[0; 0; 0; 0; 0]%float] ]};
       id_map_txt := None |}
  = Done tt {| variables := {[ "temperature" := Data3 [[7; 8; 0; 0; 0]%float] ]};
               id_map_txt := None |}.
Proof. vm_compute. reflexivity. Qed.
